(** * alpaca-cli: a shallow embedding of [index.js]

    The command-line client of [src/index.js] is embedded as Rocq
    functions.  JavaScript values are a small inductive type, numbers are
    IEEE 754 binary64 values ([spec_float] with [prec = 53] and
    [emax = 1024]), exceptions are an error result, and the configuration
    store, the console and the calls to the brokerage are threaded through
    an explicit state ([world]).

    Third-party packages the program imports ([minimist],
    [minimist-options], [joi], [conf], [@alpacahq/alpaca-trade-api]) are
    not part of the repository's sources; each is either a parameter of
    the embedding or a model that says so in its doc comment. *)

From Stdlib Require Import ZArith NArith List String Ascii Bool Lia.
From Stdlib Require Import Floats.SpecFloat DecimalString.
From stdpp Require Import gmap strings.
Import ListNotations.
Open Scope string_scope.

(* ================================================================== *)
(** * JavaScript values *)

Set Warnings "-register-all".

(** A JavaScript number. *)
Definition number : Type := spec_float.

(** The values the program handles.  [VNative name] is a built-in object
    reached through the prototype chain (for instance the function
    [Object] found as [obj.constructor]). *)
Inductive value :=
| VUndefined
| VNull
| VBool (b : bool)
| VNumber (x : number)
| VString (s : string)
| VArray (items : list value)
| VObject (props : list (string * value))
| VNative (name : string).

(** An entry of minimist's [_] array: a string, or a number when the
    token looked numeric. *)
Inductive atom :=
| AString (s : string)
| ANumber (x : number).

Definition value_of (p : atom) : value :=
  match p with
  | AString s => VString s
  | ANumber x => VNumber x
  end.

(** [a[i]] on such an array: [undefined] past the end. *)
Definition element (l : list atom) (i : nat) : value :=
  match nth_error l i with
  | Some p => value_of p
  | None => VUndefined
  end.

Module Num.

Definition prec : Z := 53.
Definition emax : Z := 1024.

Definition nan : number := S754_nan.
Definition zero : number := S754_zero false.
Definition of_Z (z : Z) : number := binary_normalize prec emax z 0 false.
Definition one : number := of_Z 1.
Definition add (x y : number) : number := SFadd prec emax x y.
Definition ltb (x y : number) : bool := SFltb x y.

Definition is_nan (x : number) : bool :=
  match x with S754_nan => true | _ => false end.

Definition is_finite (x : number) : bool :=
  match x with S754_nan | S754_infinity _ => false | _ => true end.

(** [+0], [-0] and [NaN] are the falsy numbers. *)
Definition falsy (x : number) : bool :=
  match x with S754_zero _ | S754_nan => true | _ => false end.

(** A number after a round trip through its decimal text
    ([ToString] then parsing): only [-0] changes, to [+0]. *)
Definition reparsed (x : number) : number :=
  match x with S754_zero _ => S754_zero false | _ => x end.

(** The value of the decimal [(-1)^neg * m * 10^e], rounded to nearest,
    ties to even. *)
Definition of_decimal (neg : bool) (m : N) (e : Z) : number :=
  match m with
  | N0 => S754_zero neg
  | Npos p =>
      match e with
      | Zneg k =>
          SFdiv prec emax (S754_finite neg p 0)
                (S754_finite false (Pos.pow 10 k) 0)
      | _ =>
          let n := (Z.pos p * 10 ^ e)%Z in
          binary_normalize prec emax (if neg then - n else n)%Z 0 false
      end
  end.

End Num.

(* ================================================================== *)
(** * Numeric text *)

(** Strings are read as lists of characters; the model covers the ASCII
    range, which is all that numeric syntax uses. *)
Module Lex.

Definition chars : Type := list ascii.

Definition code (c : ascii) : N := N_of_ascii c.

Definition is_digit (c : ascii) : bool :=
  (48 <=? code c)%N && (code c <=? 57)%N.

Definition is_hex_digit (c : ascii) : bool :=
  is_digit c
  || ((97 <=? code c)%N && (code c <=? 102)%N)
  || ((65 <=? code c)%N && (code c <=? 70)%N).

Definition is_octal_digit (c : ascii) : bool :=
  (48 <=? code c)%N && (code c <=? 55)%N.

Definition is_binary_digit (c : ascii) : bool :=
  (48 <=? code c)%N && (code c <=? 49)%N.

(** TAB, LF, VT, FF, CR and SPACE. *)
Definition is_space (c : ascii) : bool :=
  ((9 <=? code c)%N && (code c <=? 13)%N) || (code c =? 32)%N.

Definition digit_value (c : ascii) : N :=
  if is_digit c then (code c - 48)%N
  else if (97 <=? code c)%N then (code c - 87)%N
  else (code c - 55)%N.

Definition digits_value (base : N) (ds : chars) : N :=
  fold_left (fun acc c => (acc * base + digit_value c)%N) ds 0%N.

Fixpoint span (p : ascii -> bool) (cs : chars) : chars * chars :=
  match cs with
  | c :: rest =>
      if p c then let (a, b) := span p rest in (c :: a, b) else ([], cs)
  | [] => ([], [])
  end.

Fixpoint drop_while (p : ascii -> bool) (cs : chars) : chars :=
  match cs with
  | c :: rest => if p c then drop_while p rest else cs
  | [] => []
  end.

Definition trim_start (cs : chars) : chars := drop_while is_space cs.

Definition trim (cs : chars) : chars :=
  rev (drop_while is_space (rev (drop_while is_space cs))).

Fixpoint strip_prefix (pre cs : chars) : option chars :=
  match pre, cs with
  | [], _ => Some cs
  | p :: pre', c :: cs' =>
      if Ascii.eqb p c then strip_prefix pre' cs' else None
  | _ :: _, [] => None
  end.

(** The magnitude of a decimal literal: [Infinity], or the digits [m]
    scaled by [10^e]. *)
Inductive magnitude :=
| Infinite
| Decimal (m : N) (e : Z).

Definition lex_sign (cs : chars) : bool * chars :=
  match cs with
  | "+"%char :: rest => (false, rest)
  | "-"%char :: rest => (true, rest)
  | _ => (false, cs)
  end.

(** An exponent part [e[+-]digits] at the front of [cs], when there is a
    whole one; [upper] also accepts [E]. *)
Definition lex_exponent (upper : bool) (cs : chars) : Z * chars :=
  match cs with
  | c :: rest =>
      if Ascii.eqb c "e" || (upper && Ascii.eqb c "E") then
        let (neg, r1) := lex_sign rest in
        let (ds, r2) := span is_digit r1 in
        match ds with
        | [] => (0%Z, cs)
        | _ =>
            let n := Z.of_N (digits_value 10 ds) in
            ((if neg then - n else n)%Z, r2)
        end
      else (0%Z, cs)
  | [] => (0%Z, cs)
  end.

(** The longest unsigned decimal literal at the front of [cs]:
    [digits], [digits.], [digits.digits] or [.digits], then an optional
    exponent part. *)
Definition lex_unsigned (infinity upper : bool) (cs : chars)
  : option (magnitude * chars) :=
  match (if infinity then strip_prefix (list_ascii_of_string "Infinity") cs
         else None) with
  | Some rest => Some (Infinite, rest)
  | None =>
      let (ip, r1) := span is_digit cs in
      let '(fp, r2) :=
        match r1 with
        | "."%char :: r =>
            let (f, r') := span is_digit r in
            match ip, f with
            | [], [] => ([], r1)
            | _, _ => (f, r')
            end
        | _ => ([], r1)
        end in
      match ip, fp with
      | [], [] => None
      | _, _ =>
          let (ex, r3) := lex_exponent upper r2 in
          Some (Decimal (digits_value 10 (ip ++ fp)%list)
                        (ex - Z.of_nat (List.length fp)),
                r3)
      end
  end.

Definition lex_signed (infinity upper : bool) (cs : chars)
  : option (bool * magnitude * chars) :=
  let (neg, r) := lex_sign cs in
  match lex_unsigned infinity upper r with
  | Some (m, rest) => Some (neg, m, rest)
  | None => None
  end.

Definition magnitude_value (neg : bool) (m : magnitude) : number :=
  match m with
  | Infinite => S754_infinity neg
  | Decimal d e => Num.of_decimal neg d e
  end.

(** [0x], [0o] or [0b] (either case) followed by digits of that base and
    nothing else. *)
Definition radix_literal (mark : ascii) (digit : ascii -> bool) (base : N)
  (cs : chars) : option number :=
  match cs with
  | "0"%char :: m :: d :: ds =>
      if (Ascii.eqb m mark || (code m + 32 =? code mark)%N)
         && forallb digit (d :: ds)
      then Some (Num.of_Z (Z.of_N (digits_value base (d :: ds))))
      else None
  | _ => None
  end.

(** [parseFloat(s)]: leading white space is skipped, the longest decimal
    literal at the front is the result, and without one the result is
    [NaN]. *)
Definition parseFloat (s : string) : number :=
  match lex_signed true true (trim_start (list_ascii_of_string s)) with
  | Some (neg, m, _) => magnitude_value neg m
  | None => Num.nan
  end.

(** [Number(s)] on a string: white space around is dropped, the empty
    text is [0], and the whole of the rest has to be one numeric
    literal. *)
Definition string_to_number (s : string) : number :=
  let cs := trim (list_ascii_of_string s) in
  match cs with
  | [] => Num.zero
  | _ =>
      match radix_literal "x" is_hex_digit 16 cs with
      | Some x => x
      | None =>
      match radix_literal "o" is_octal_digit 8 cs with
      | Some x => x
      | None =>
      match radix_literal "b" is_binary_digit 2 cs with
      | Some x => x
      | None =>
      match lex_signed true true cs with
      | Some (neg, m, []) => magnitude_value neg m
      | _ => Num.nan
      end end end end
  end.

End Lex.

(* ================================================================== *)
(** * Conversions of values *)

(** [!!v]. *)
Definition truthy (v : value) : bool :=
  match v with
  | VUndefined | VNull => false
  | VBool b => b
  | VNumber x => negb (Num.falsy x)
  | VString s => negb (s =? "")
  | VArray _ | VObject _ | VNative _ => true
  end.

(** [typeof v === 'string']. *)
Definition is_string (v : value) : bool :=
  match v with VString _ => true | _ => false end.

(** [v === s] for a string literal [s]. *)
Definition strict_equals_string (v : value) (s : string) : bool :=
  match v with VString t => t =? s | _ => false end.

(** The number read back from the text of [v] as an array would print
    it: [undefined] and [null] print as the empty text, an array prints
    its items separated by commas. *)
Fixpoint number_of_item_text (v : value) : number :=
  match v with
  | VUndefined | VNull => Num.zero
  | VBool _ => Num.nan
  | VNumber x => Num.reparsed x
  | VString s => Lex.string_to_number s
  | VArray [] => Num.zero
  | VArray [x] => number_of_item_text x
  | VArray (_ :: _ :: _) => Num.nan
  | VObject _ | VNative _ => Num.nan
  end.

(** [ToNumber(v)], the conversion the comparison [v > 1] applies. *)
Definition to_number (v : value) : number :=
  match v with
  | VUndefined => Num.nan
  | VNull => Num.zero
  | VBool b => if b then Num.one else Num.zero
  | VNumber x => x
  | _ => number_of_item_text v
  end.

(** [parseFloat(v)]: [v] is turned into text first.  The text of a
    number parses back to the number; the text of an array starts with
    the text of its first item (empty for [undefined] and [null]) and
    goes on with a comma, which no numeric literal contains. *)
Fixpoint parseFloat (v : value) : number :=
  match v with
  | VString s => Lex.parseFloat s
  | VNumber x => Num.reparsed x
  | VArray (x :: _) => parseFloat x
  | VArray [] => Num.nan
  | VUndefined | VNull | VBool _ | VObject _ | VNative _ => Num.nan
  end.

(* ================================================================== *)
(** * Text, errors and effects *)

(** The chunks of a template literal.  Text the program builds out of
    strings alone is a single [Lit]; an interpolated value that is not a
    string is kept as the value ([Interp], printed by [ToString]), and a
    value handed to [console.log] as it is stays the value
    ([Inspect]). *)
Inductive piece :=
| Lit (s : string)
| Interp (v : value)
| Inspect (v : value).

Definition text : Type := list piece.

(** [`${v}`] *)
Definition interp (v : value) : piece :=
  match v with VString s => Lit s | _ => Interp v end.

(** The text as one string, when every chunk is literal. *)
Fixpoint text_string (t : text) : option string :=
  match t with
  | [] => Some ""
  | Lit s :: rest =>
      match text_string rest with
      | Some r => Some (s +:+ r)
      | None => None
      end
  | _ :: _ => None
  end.

(** A thrown exception; [message] is [err.message]. *)
Inductive exn :=
| Error (msg : text)
| TypeError (msg : text).

Definition message (e : exn) : text :=
  match e with Error m | TypeError m => m end.

Inductive result (A : Type) :=
| Ok (a : A)
| Err (e : exn).
Arguments Ok {A} a.
Arguments Err {A} e.

(** The client object [getAlpaca] builds. *)
Record alpaca_client := {
  keyId : value;
  secretKey : value;
  paper : bool;
  baseUrl : value
}.

(** The argument of [alpaca.createOrder]. *)
Record order_request := {
  symbol : value;
  qty : value;
  side : string;
  type : value;
  time_in_force : value;
  limit_price : value;
  stop_price : value;
  client_order_id : value
}.

(** What the program reads of the brokerage's replies. *)
Record order_reply := { id : value }.
Record bar := { c : value }.
Record position := {
  pos_symbol : value;
  pos_qty : value;
  pos_cost_basis : value;
  pos_market_value : value;
  pos_unrealized_pl : value
}.

(** What a run does to the outside, in order. *)
Inductive event :=
| ConfigSet (key : string) (v : value)
| CreateOrder (client : alpaca_client) (req : order_request)
| GetBars (client : alpaca_client) (sym : value)
| GetPositions (client : alpaca_client)
| ConsoleLog (t : text)
| ConsoleError (t : text).

(** The configuration store ([conf]) and the effects so far. *)
Record world := {
  store : gmap string value;
  trace : list event
}.

(** A computation that may throw and that acts on the world. *)
Definition M (A : Type) : Type := world -> result A * world.

Definition ret {A} (a : A) : M A := fun w => (Ok a, w).
Definition throw {A} (e : exn) : M A := fun w => (Err e, w).
Definition bind {A B} (m : M A) (k : A -> M B) : M B :=
  fun w =>
    match m w with
    | (Ok a, w') => k a w'
    | (Err e, w') => (Err e, w')
    end.
Definition catch {A} (m : M A) (h : exn -> M A) : M A :=
  fun w =>
    match m w with
    | (Ok a, w') => (Ok a, w')
    | (Err e, w') => h e w'
    end.
Definition lift {A} (r : result A) : M A := fun w => (r, w).

Notation "x <- m ;; k" := (bind m (fun x => k))
  (at level 100, m at next level, right associativity).
Notation "m ;;; k" := (bind m (fun _ => k))
  (at level 100, right associativity).

Definition emit (e : event) : M unit :=
  fun w => (Ok tt, {| store := store w; trace := trace w ++ [e] |}).

Definition console_log (t : text) : M unit := emit (ConsoleLog t).
Definition console_error (t : text) : M unit := emit (ConsoleError t).

(** Modelled from the spec: the configuration store is the package
    [conf], which is not among the sources; the specification takes it
    as a key-value store with [get(key)] and [set(key, value)].
    [config.get(key)] is [undefined] for a key that is not stored. *)
Definition config_get (key : string) : M value :=
  fun w => (Ok (default VUndefined (store w !! key)), w).

(** Modelled from the spec: [config.set(key, v)] of the same store; the
    last write to a key wins. *)
Definition config_set (key : string) (v : value) : M unit :=
  fun w =>
    (Ok tt, {| store := <[key := v]> (store w);
               trace := trace w ++ [ConfigSet key v] |}).

(* ================================================================== *)
(** * Objects *)

Fixpoint assoc {A} (k : string) (l : list (string * A)) : option A :=
  match l with
  | [] => None
  | (k', a) :: rest => if k' =? k then Some a else assoc k rest
  end.

(** The properties every object inherits from [Object.prototype]. *)
Definition object_prototype_keys : list string :=
  [ "constructor"; "__defineGetter__"; "__defineSetter__";
    "hasOwnProperty"; "__lookupGetter__"; "__lookupSetter__";
    "isPrototypeOf"; "propertyIsEnumerable"; "toString"; "valueOf";
    "__proto__"; "toLocaleString" ].

Definition inherited (k : string) : bool :=
  existsb (String.eqb k) object_prototype_keys.

(** What [obj[k]] finds on an object literal: a property of its own, a
    property of [Object.prototype], or nothing ([undefined]). *)
Inductive property (A : Type) :=
| Own (a : A)
| Inherited (name : string)
| Absent.
Arguments Own {A} a.
Arguments Inherited {A} name.
Arguments Absent {A}.

Definition js_get {A} (obj : list (string * A)) (k : string) : property A :=
  match assoc k obj with
  | Some a => Own a
  | None => if inherited k then Inherited k else Absent
  end.

(** The index a property name stands for, when it is one ([0], or digits
    with no leading zero, below [2^32 - 1]). *)
Definition array_index (k : string) : option N :=
  let cs := list_ascii_of_string k in
  match cs with
  | [] => None
  | c0 :: rest =>
      if forallb Lex.is_digit cs
         && (negb (Ascii.eqb c0 "0") || match rest with [] => true | _ => false end)
         && (List.length cs <=? 10)%nat
      then
        let n := Lex.digits_value 10 cs in
        if (n <? 4294967295)%N then Some n else None
      else None
  end.

Fixpoint insert_index (k : N * string) (l : list (N * string))
  : list (N * string) :=
  match l with
  | [] => [k]
  | k' :: rest =>
      if (fst k <=? fst k')%N then k :: l else k' :: insert_index k rest
  end.

(** [Object.keys] of an object whose properties were created in the
    order [names]: the indices first, ascending, then the other names in
    creation order. *)
Definition own_keys (names : list string) : list string :=
  let indices :=
    fold_right
      (fun k acc =>
         match array_index k with
         | Some n => insert_index (n, k) acc
         | None => acc
         end) [] names in
  (map snd indices
   ++ List.filter (fun k => match array_index k with
                            | Some _ => false
                            | None => true
                            end) names)%list.

(** The record minimist returns: [_], then the flags in the order they
    were first set. *)
Record parsed := {
  positionals : list atom;
  flags : list (string * value)
}.

(** [args[k]] for a flag name [k]. *)
Definition arg (args : parsed) (k : string) : value :=
  default VUndefined (assoc k (flags args)).

(** [Object.keys(args)]. *)
Definition keys (args : parsed) : list string :=
  own_keys ("_" :: map fst (flags args)).

(* ================================================================== *)
(** * joi *)

(** The package [joi] is not among the sources.  The model below covers
    what [index.js] uses of it: the rules [joi.any()], [joi.only(...)],
    [joi.number()] and [joi.string()], each [.required()] or
    [.optional()]; validation of an object against a map from keys to
    such rules; the option [abortEarly]; and joi's wording of each
    violation.  Text is taken to be ASCII. *)
Module Joi.

Inductive kind :=
| Any
| Only (valids : list string)
| Number
| String_.

Record rule := {
  rule_kind : kind;
  required : bool
}.

Definition schema : Type := list (string * rule).

Definition dquote : string := String (ascii_of_nat 34) EmptyString.

(** A violation is worded as the quoted key followed by the reason. *)
Definition worded (key reason : string) : string :=
  dquote +:+ key +:+ dquote +:+ " " +:+ reason.

(** A number, or text that reads as a finite number. *)
Definition number_like (v : value) : bool :=
  match v with
  | VNumber x => negb (Num.is_nan x)
  | VString s =>
      negb (Num.is_nan (Lex.parseFloat s))
      && Num.is_finite (Lex.string_to_number s)
  | _ => false
  end.

(** The reason a rule gives against the value of its key, [None] when
    the value is accepted.  [VUndefined] is a key that is not there. *)
Definition violation (r : rule) (v : value) : option string :=
  match v with
  | VUndefined => if required r then Some "is required" else None
  | _ =>
      match rule_kind r with
      | Any => None
      | Only valids =>
          match v with
          | VString s =>
              if existsb (String.eqb s) valids then None
              else Some ("must be one of [" +:+ String.concat ", " valids +:+ "]")
          | _ => Some ("must be one of [" +:+ String.concat ", " valids +:+ "]")
          end
      | Number =>
          if number_like v then None else Some "must be a number"
      | String_ =>
          match v with
          | VString "" => Some "is not allowed to be empty"
          | VString _ => None
          | _ => Some "must be a string"
          end
      end
  end.

(** [target[key]] for a key of the schema. *)
Definition item (target : parsed) (key : string) : value :=
  if key =? "_" then VArray (map value_of (positionals target))
  else arg target key.

(** The loop over the keys of the schema: the messages so far, and
    whether validation stopped at the first violation. *)
Fixpoint check_children (abortEarly : bool) (children : schema)
  (target : parsed) (errors : list string) : list string * bool :=
  match children with
  | [] => (errors, false)
  | (key, r) :: rest =>
      match violation r (item target key) with
      | Some reason =>
          if abortEarly then ((errors ++ [worded key reason])%list, true)
          else check_children abortEarly rest target
                 (errors ++ [worded key reason])%list
      | None => check_children abortEarly rest target errors
      end
  end.

(** The keys of the target that the schema does not name. *)
Definition unknown_keys (target : parsed) (s : schema) : list string :=
  List.filter (fun k => negb (existsb (String.eqb k) (map fst s)))
              (keys target).

(** The options [validate] is called with, as far as the model goes.
    Left out of the call, [allowUnknown] is [false]. *)
Record options := {
  abortEarly : bool;
  allowUnknown : bool
}.

(** Modelled from the spec: the Validator of section 4.3, which is
    joi's [validate] and is not among the sources.  The result is
    [joi.validate(target, schema, opts).error.details], each detail
    reduced to its message, and is empty when the target is valid: one
    message for each rule the target violates, in the order of the
    schema, then, unless [allowUnknown] is set, one for each key the
    schema does not name.  With [abortEarly] the first violation ends
    the validation. *)
Definition validate (target : parsed) (s : schema) (opts : options)
  : list string :=
  match check_children (abortEarly opts) s target [] with
  | (errors, true) => errors
  | (errors, false) =>
      let unknown :=
        if allowUnknown opts then []
        else map (fun k => worded k "is not allowed")
                 (unknown_keys target s) in
      (errors ++ (if abortEarly opts then firstn 1 unknown else unknown))%list
  end.

(** What a rule makes of an accepted value: [joi.number()] turns text
    into the number it reads. *)
Definition convert (r : rule) (v : value) : value :=
  match rule_kind r, v with
  | Number, VString s => VNumber (Lex.parseFloat s)
  | _, _ => v
  end.

(** [joi.validate(target, schema).value] for a valid target. *)
Definition converted (target : parsed) (s : schema) : parsed :=
  {| positionals := positionals target;
     flags := map (fun kv => (fst kv,
                              match assoc (fst kv) s with
                              | Some r => convert r (snd kv)
                              | None => snd kv
                              end)) (flags target) |}.

End Joi.

(* ================================================================== *)
(** * minimist and minimist-options *)

Module Minimist.

(** The options minimist reads: the flags declared as strings and the
    defaults.  ([number] is what minimist-options records for a flag
    declared as a number; minimist does not read it.) *)
Record options := {
  strings : list string;
  numbers : list string;
  defaults : list (string * value)
}.

(** Calling minimist without options. *)
Definition no_options : options :=
  {| strings := []; numbers := []; defaults := [] |}.

(** The package [minimist] is not among the sources.  The model below
    follows it on positional tokens, on the long flags [--key=value],
    [--no-key], [--key value] and [--key], on the [--] separator and on
    the defaults.  None of the commands declares a boolean flag or an
    alias, so those are left out, and text is taken to be ASCII. *)

(** [isNumber(x)] on text: [0x] and hexadecimal digits, or an
    optional sign, then digits with an optional fraction or a fraction
    alone, then an optional exponent part written with a small [e];
    nothing before and nothing after. *)
Definition isNumber (x : String.string) : bool :=
  let cs := list_ascii_of_string x in
  match Lex.radix_literal "x" Lex.is_hex_digit 16 cs with
  | Some _ => true
  | None =>
      match Lex.lex_signed false false cs with
      | Some (_, _, []) => true
      | _ => false
      end
  end.

(** A positional token as it is pushed on [_]. *)
Definition positional (strings : list String.string) (arg : String.string)
  : atom :=
  if existsb (String.eqb "_") strings || negb (isNumber arg) then AString arg
  else ANumber (Lex.string_to_number arg).

(** The value [setArg] stores for [val] under [key]. *)
Definition coerce (strings : list String.string) (key : String.string)
  (val : value) : value :=
  match val with
  | VString s =>
      if negb (existsb (String.eqb key) strings) && isNumber s
      then VNumber (Lex.string_to_number s)
      else val
  | _ => val
  end.

(** [setKey] on a plain key: the first value is stored as it is, a
    boolean is replaced, and further values collect in an array. *)
Fixpoint setKey (key : String.string) (v : value)
  (o : list (String.string * value)) : list (String.string * value) :=
  match o with
  | [] => [(key, v)]
  | (k, old) :: rest =>
      if k =? key then
        (k, match old with
            | VUndefined | VBool _ => v
            | VArray items => VArray (items ++ [v])%list
            | _ => VArray [old; v]
            end) :: rest
      else (k, old) :: setKey key v rest
  end.

Definition is_line_terminator (c : ascii) : bool :=
  (Lex.code c =? 10)%N || (Lex.code c =? 13)%N.

Definition plain_key (key : String.string) : bool :=
  negb (existsb (Ascii.eqb ".") (list_ascii_of_string key))
  && negb (key =? "_")
  && negb (inherited key).

(** The shapes of a token. *)
Inductive shape :=
| LongEq (key val : String.string)
| LongNo (key : String.string)
| Long (key : String.string)
| Bare
| Unmodelled.

Definition chars_to_string (cs : list ascii) : String.string :=
  string_of_list_ascii cs.

Definition classify (arg : String.string) : shape :=
  match list_ascii_of_string arg with
  | "-"%char :: "-"%char :: body =>
      if existsb is_line_terminator body then Unmodelled
      else
        let (key, rest) :=
          Lex.span (fun c => negb (Ascii.eqb c "=")) body in
        match body, rest with
        | _ :: tl, _ :: val =>
            if existsb (Ascii.eqb "=") tl then
              match key with
              | [] => Unmodelled
              | _ => LongEq (chars_to_string key) (chars_to_string val)
              end
            else Long (chars_to_string body)
        | _, _ =>
            match Lex.strip_prefix (list_ascii_of_string "no-") body with
            | Some (ch :: more) => LongNo (chars_to_string (ch :: more))
            | _ =>
                match body with
                | [] => Bare
                | _ => Long (chars_to_string body)
                end
            end
        end
  | "-"%char :: _ :: _ => Unmodelled
  | _ => Bare
  end.

Definition setArg (strings : list String.string) (key : String.string)
  (val : value) (argv : parsed) : option parsed :=
  if plain_key key then
    Some {| positionals := positionals argv;
            flags := setKey key (coerce strings key val) (flags argv) |}
  else None.

Definition push (a : atom) (argv : parsed) : parsed :=
  {| positionals := (positionals argv ++ [a])%list; flags := flags argv |}.

Definition starts_with_dash (s : String.string) : bool :=
  match s with String "-" _ => true | _ => false end.

(** The loop over the tokens before [--]. *)
Fixpoint scan (strings : list String.string) (args : list String.string)
  (argv : parsed) : option parsed :=
  match args with
  | [] => Some argv
  | arg :: rest =>
      match classify arg with
      | LongEq key val =>
          match setArg strings key (VString val) argv with
          | Some argv' => scan strings rest argv'
          | None => None
          end
      | LongNo key =>
          match setArg strings key (VBool false) argv with
          | Some argv' => scan strings rest argv'
          | None => None
          end
      | Long key =>
          match rest with
          | next :: rest' =>
              if negb (starts_with_dash next) then
                match setArg strings key (VString next) argv with
                | Some argv' => scan strings rest' argv'
                | None => None
                end
              else
                match setArg strings key
                        (if existsb (String.eqb key) strings
                         then VString "" else VBool true) argv with
                | Some argv' => scan strings rest argv'
                | None => None
                end
          | [] =>
              setArg strings key
                (if existsb (String.eqb key) strings
                 then VString "" else VBool true) argv
          end
      | Bare => scan strings rest (push (positional strings arg) argv)
      | Unmodelled => None
      end
  end.

(** A default is stored under a key the tokens did not set. *)
Fixpoint apply_defaults (ds : list (String.string * value)) (argv : parsed)
  : option parsed :=
  match ds with
  | [] => Some argv
  | (key, v) :: rest =>
      if plain_key key then
        apply_defaults rest
          (match assoc key (flags argv) with
           | Some _ => argv
           | None => {| positionals := positionals argv;
                        flags := setKey key v (flags argv) |}
           end)
      else None
  end.

Fixpoint split_at_separator (args : list String.string)
  : list String.string * list String.string :=
  match args with
  | [] => ([], [])
  | arg :: rest =>
      if arg =? "--" then ([], rest)
      else let (a, b) := split_at_separator rest in (arg :: a, b)
  end.

(** Modelled from the spec: the Argument Parser of section 4.2, which is
    [minimist(args, opts)] and is not among the sources.  Tokens that
    are no flags are collected in order, a numeric one as a number;
    a flag is stored under its name; a declared default is stored for a
    flag the tokens did not set.  Where the model does not follow
    minimist the result is [None]: a cluster of short flags ([-abc]), a
    long flag whose text holds a line terminator, and a key that is not
    a plain name (one with a dot, [_], or a name that objects
    inherit). *)
Definition parse (args : list String.string) (opts : options) : option parsed :=
  let (before, notFlags) := split_at_separator args in
  match scan (strings opts) before {| positionals := []; flags := [] |} with
  | Some argv =>
      match apply_defaults (defaults opts) argv with
      | Some argv' =>
          Some {| positionals :=
                    (positionals argv' ++ map AString notFlags)%list;
                  flags := flags argv' |}
      | None => None
      end
  | None => None
  end.

End Minimist.

(** A flag as [index.js] declares it to minimist-options. *)
Record declaration := {
  decl_type : string;
  decl_default : option value
}.

(** [minimistOpts({...})]: each flag is listed under its type, and each
    default under the flag's name. *)
Definition minimistOpts (decls : list (string * declaration))
  : Minimist.options :=
  {| Minimist.strings :=
       map fst (List.filter (fun d => decl_type (snd d) =? "string") decls);
     Minimist.numbers :=
       map fst (List.filter (fun d => decl_type (snd d) =? "number") decls);
     Minimist.defaults :=
       flat_map (fun d => match decl_default (snd d) with
                          | Some v => [(fst d, v)]
                          | None => []
                          end) decls |}.

(* ================================================================== *)
(** * What the program is run with *)

(** The brokerage, as far as the program looks at its replies.  A call
    either returns or throws.  [getBars client sym] stands for
    [(await alpaca.getBars('minute', sym, { limit: 1 }))[sym][0]]: the
    latest bar of the reply, [None] when the reply holds no bar. *)
Record brokerage := {
  createOrder : alpaca_client -> order_request -> result order_reply;
  getBars : alpaca_client -> value -> result (option bar);
  getPositions : alpaca_client -> result (list position)
}.

(** The collaborators of a run: minimist ([parseArgs]), the brokerage,
    and the runtime's currency format, that is
    [x.toLocaleString(undefined, { style: 'currency', currency: 'USD' })],
    which depends on the locale the process runs in. *)
Record runtime := {
  parseArgs : list string -> Minimist.options -> parsed;
  alpaca : brokerage;
  toLocaleString : number -> string
}.

(* ================================================================== *)
(** * index.js *)

Definition getAlpaca : M alpaca_client :=
  keyId <- config_get "keyId" ;;
  secretKey <- config_get "secretKey" ;;
  if negb (truthy keyId) || negb (truthy secretKey) then
    throw (Error [Lit "No alpaca configuration found.
See 'alpaca help configure' for more information."])
  else
    mode <- config_get "mode" ;;
    baseUrl <- config_get "baseUrl" ;;
    ret {| keyId := keyId;
           secretKey := secretKey;
           paper := strict_equals_string mode "paper";
           baseUrl := baseUrl |}.

Definition BUY_USAGE : string :=
"alpaca buy [quantity] <symbol>
  [--type=<market|limit|stop|stop_limit>]
  [--time-in-force=<day|gtc|opg|ioc>]
  [--limit-price=<number>]
  [--stop-price=<number>]".

Definition SELL_USAGE : string :=
"alpaca sell [quantity] <symbol>
  [--type=<market|limit|stop|stop_limit>]
  [--time-in-force=<day|gtc|opg|ioc>]
  [--limit-price=<number>]
  [--stop-price=<number>]".

Definition REPORT_USAGE : string :=
"alpaca report

Outputs a report of your current portfolio".

Definition CONFIGURE_USAGE : string :=
"alpaca configure [--id=<key-id>] [--secret=<secret-key>] [--mode=<paper|live>]

Get your api key at https://alpaca.markets.

'paper' mode switches on paper trading. 'live' is the default, and uses real money.".

Definition HELP : string :=
"Usage:
alpaca <command>

commands:
  configure   configure your alpaca cli installation
  buy         buy a stock
  sell        sell a stock
  report      display a report of your current portfolio

Run 'alpaca help <command>' for help with a specific command.
".

Definition HELP_DETAILS : list (string * string) :=
  [ ("configure", CONFIGURE_USAGE);
    ("buy", BUY_USAGE +:+ "

Buys a stock");
    ("sell", SELL_USAGE +:+ "

Sells a stock");
    ("report", REPORT_USAGE);
    ("help", HELP) ].

Definition orderOptions : Minimist.options :=
  minimistOpts
    [ ("type", {| decl_type := "string";
                  decl_default := Some (VString "market") |});
      ("time-in-force", {| decl_type := "string";
                           decl_default := Some (VString "gtc") |});
      ("limit-price", {| decl_type := "number"; decl_default := None |});
      ("stop-price", {| decl_type := "number"; decl_default := None |});
      ("client-order-id", {| decl_type := "string";
                             decl_default := None |}) ].

Definition optional (k : Joi.kind) : Joi.rule :=
  {| Joi.rule_kind := k; Joi.required := false |}.
Definition required (k : Joi.kind) : Joi.rule :=
  {| Joi.rule_kind := k; Joi.required := true |}.

Definition orderSchema : Joi.schema :=
  [ ("_", optional Joi.Any);
    ("type", required (Joi.Only ["market"; "limit"; "stop"; "stop_limit"]));
    ("time-in-force", required (Joi.Only ["day"; "gtc"; "opg"; "ioc"]));
    ("limit-price", optional Joi.Number);
    ("stop-price", optional Joi.Number);
    ("client-order-id", optional Joi.String_) ].

(** Lines 98 to 104 of [order]: the quantity and the symbol read off
    [_], or the usage error. *)
Definition resolve (usage : string) (underscore : list atom)
  : result (value * value) :=
  let qty := element underscore 0 in
  let symbol := element underscore 1 in
  if negb (truthy symbol) && is_string qty then
    Ok (VNumber Num.one, qty)
  else if negb (truthy qty) || negb (truthy symbol) then
    Err (Error [Lit ("Usage: " +:+ usage)])
  else Ok (qty, symbol).

(** [qty > 1] *)
Definition more_than_one (qty : value) : bool :=
  Num.ltb Num.one (to_number qty).

Section Handlers.

Variable rt : runtime.

(** A call to the brokerage: the call is recorded, then it returns or
    throws as the brokerage answers. *)
Definition call {A} (e : event) (answer : result A) : M A :=
  emit e ;;; lift answer.

Definition getMarketPrice (client : alpaca_client) (symbol : value)
  : M value :=
  latestBar <- call (GetBars client symbol)
                    (getBars (alpaca rt) client symbol) ;;
  match latestBar with
  | Some b => ret (c b)
  | None => throw (TypeError [Lit "Cannot read property 'c' of undefined"])
  end.

Definition order (side usage : string) (args : parsed) : M unit :=
  let type := arg args "type" in
  let time_in_force := arg args "time-in-force" in
  let limit_price := arg args "limit-price" in
  let stop_price := arg args "stop-price" in
  let client_order_id := arg args "client-order-id" in
  client <- getAlpaca ;;
  r <- lift (resolve usage (positionals args)) ;;
  let '(qty, symbol) := r in
  let req := {| symbol := symbol; qty := qty; side := side; type := type;
                time_in_force := time_in_force;
                limit_price := limit_price; stop_price := stop_price;
                client_order_id := client_order_id |} in
  reply <- call (CreateOrder client req)
                (createOrder (alpaca rt) client req) ;;
  priceText <-
    (if strict_equals_string type "stop_limit" then
       ret [Lit "between $"; interp stop_price; Lit " and $";
            interp limit_price]
     else if strict_equals_string type "limit" then
       ret [Lit "at $"; interp limit_price]
     else if strict_equals_string type "stop" then
       ret [Lit "at $"; interp stop_price]
     else
       price <- getMarketPrice client symbol ;;
       ret [Lit "at $"; interp price]) ;;
  console_log
    ([Lit "Placed a "; interp type; Lit " order to "; Lit side; Lit " ";
      interp qty; Lit " share";
      Lit (if more_than_one qty then "s" else "");
      Lit " of "; interp symbol; Lit " "]
     ++ priceText
     ++ [Lit ".

  order id:  "; interp (id reply)])%list.

(** [usd]: the number read off a field, in the runtime's currency
    format. *)
Definition usd (v : value) : string := toLocaleString rt (parseFloat v).

(** [s.padStart(length, ' ')] *)
Definition padStart (length : nat) (s : string) : string :=
  String.concat "" (repeat " " (length - String.length s)) +:+ s.

(** [pad(length, str)]: [padStart] is a method of strings only. *)
Definition pad (length : nat) (str : value) : result string :=
  match str with
  | VString s => Ok (padStart length s)
  | VUndefined =>
      Err (TypeError [Lit "Cannot read property 'padStart' of undefined"])
  | VNull =>
      Err (TypeError [Lit "Cannot read property 'padStart' of null"])
  | _ => Err (TypeError [Lit "str.padStart is not a function"])
  end.

(** The row of one position. *)
Definition describe (pos : position) : result string :=
  match pad 8 (pos_symbol pos) with
  | Err e => Err e
  | Ok s1 =>
      match pad 8 (pos_qty pos) with
      | Err e => Err e
      | Ok s2 =>
          Ok (s1 +:+ s2
              +:+ padStart 10 (usd (pos_cost_basis pos))
              +:+ padStart 10 (usd (pos_market_value pos))
              +:+ padStart 12 (usd (pos_unrealized_pl pos)))
      end
  end.

(** [positions.map(describe)]: the first row that throws ends the
    loop. *)
Fixpoint describe_all (positions : list position) : result (list string) :=
  match positions with
  | [] => Ok []
  | pos :: rest =>
      match describe pos with
      | Err e => Err e
      | Ok row =>
          match describe_all rest with
          | Err e => Err e
          | Ok rows => Ok (row :: rows)
          end
      end
  end.

(** [positions.reduce((total, pos) => total + parseFloat(pos.unrealized_pl), 0)] *)
Definition performance_of (positions : list position) : number :=
  fold_left (fun total pos => Num.add total (parseFloat (pos_unrealized_pl pos)))
            positions Num.zero.

Definition report (_ : parsed) : M unit :=
  client <- getAlpaca ;;
  positions <- call (GetPositions client) (getPositions (alpaca rt) client) ;;
  positionDescriptions <- lift (describe_all positions) ;;
  let performance := performance_of positions in
  let perfSign := if Num.ltb Num.zero performance then "+" else "" in
  console_log [Lit ("
Portfolio:
  symbol     qty      cost     value      profit
" +:+ String.concat "
" positionDescriptions +:+ "

Performance:
  " +:+ perfSign +:+ toLocaleString rt performance +:+ "
  ")].

End Handlers.

Definition when (b : bool) (m : M unit) : M unit :=
  if b then m else ret tt.

Definition configure (args : parsed) : M unit :=
  when (truthy (arg args "id")) (config_set "keyId" (arg args "id")) ;;;
  when (truthy (arg args "secret"))
       (config_set "secretKey" (arg args "secret")) ;;;
  when (truthy (arg args "mode")) (config_set "mode" (arg args "mode")) ;;;
  when (truthy (arg args "base-url"))
       (config_set "baseUrl" (arg args "base-url")) ;;;
  console_log
    [Lit ("configured "
          +:+ String.concat ", "
                (List.filter (fun key => negb (key =? "_")) (keys args)))].

(** [HELP_DETAILS[command]] as a value. *)
Definition help_detail (command : value) : value :=
  match command with
  | VString name =>
      match js_get HELP_DETAILS name with
      | Own usage => VString usage
      | Inherited n => VNative n
      | Absent => VUndefined
      end
  | _ =>
      (* the name a number stands for is a numeral: no property of
         [HELP_DETAILS], its own or inherited *)
      VUndefined
  end.

(** [console.log(v)]: a string is printed as it is. *)
Definition logged (v : value) : text :=
  match v with VString s => [Lit s] | _ => [Inspect v] end.

Definition help (args : parsed) : M unit :=
  let command := element (positionals args) 0 in
  if truthy command then
    if negb (truthy (help_detail command)) then
      throw (Error [Lit "'"; interp command;
                    Lit "' is not an alpaca command. See 'alpaca help'"])
    else console_log (logged (help_detail command))
  else console_log [Lit HELP].

(** The newline character. *)
Definition newline : string := String (ascii_of_nat 10) EmptyString.

Definition assertSchema (value : parsed) (schema : Joi.schema)
  : result parsed :=
  match Joi.validate value schema
          {| Joi.abortEarly := false; Joi.allowUnknown := false |} with
  | [] => Ok (Joi.converted value schema)
  | details => Err (Error [Lit (String.concat newline details)])
  end.

(** An entry of [cli]. *)
Record command := {
  options : Minimist.options;
  schema : option Joi.schema;
  fn : parsed -> M unit
}.

(** [cli.help] *)
Definition cli_help : command :=
  {| options := minimistOpts []; schema := None; fn := help |}.

Definition cli (rt : runtime) : list (string * command) :=
  [ ("configure",
     {| options :=
          minimistOpts
            [ ("id", {| decl_type := "string"; decl_default := None |});
              ("secret", {| decl_type := "string"; decl_default := None |});
              ("mode", {| decl_type := "string"; decl_default := None |});
              ("base-url", {| decl_type := "string";
                              decl_default := None |}) ];
        schema :=
          Some [ ("_", optional Joi.Any);
                 ("id", optional Joi.String_);
                 ("secret", optional Joi.String_);
                 ("mode", optional (Joi.Only ["paper"; "live"]));
                 ("base-url", optional Joi.String_) ];
        fn := configure |});
    ("buy",
     {| options := orderOptions;
        schema := Some orderSchema;
        fn := order rt "buy" BUY_USAGE |});
    ("sell",
     {| options := orderOptions;
        schema := Some orderSchema;
        fn := order rt "sell" SELL_USAGE |});
    ("report",
     {| options := minimistOpts [];
        schema := None;
        fn := report rt |});
    ("help", cli_help) ].

(** What [cli[command] || cli.help] evaluates to: an entry of [cli], or
    a built-in that [cli] inherits under that name. *)
Inductive action :=
| Entry (entry : command)
| Builtin (name : string).

(** [action.options], [action.schema] and [action.fn]: a built-in has
    none of the three. *)
Definition action_options (a : action) : option Minimist.options :=
  match a with Entry e => Some (options e) | Builtin _ => None end.
Definition action_schema (a : action) : option Joi.schema :=
  match a with Entry e => schema e | Builtin _ => None end.
Definition action_fn (a : action) : option (parsed -> M unit) :=
  match a with Entry e => Some (fn e) | Builtin _ => None end.

(** [cli[command] || cli.help]; a missing [command] is [undefined],
    which reads the property named [undefined]. *)
Definition select (rt : runtime) (command : option string) : action :=
  match js_get (cli rt) (default "undefined" command) with
  | Own entry => Entry entry
  | Inherited name => Builtin name
  | Absent => Entry cli_help
  end.

(** The body of the [try] block, for [process.argv] after the paths of
    node and of the script. *)
Definition dispatch (rt : runtime) (args : list string) : M unit :=
  let command := head args in
  let argv := tail args in
  let action := select rt command in
  let parsedArgs :=
    parseArgs rt argv (default Minimist.no_options (action_options action)) in
  match action_schema action with
  | Some s => _ <- lift (assertSchema parsedArgs s) ;; ret tt
  | None => ret tt
  end ;;;
  match action_fn action with
  | Some f => f parsedArgs
  | None => throw (TypeError [Lit "action.fn is not a function"])
  end.

Definition main (rt : runtime) (process_argv : list string) : M unit :=
  catch (dispatch rt (skipn 2 process_argv))
        (fun err => console_error (message err)).

(* ================================================================== *)
(** * A runtime to run the program on *)

(** The currency format under the locale [en-US], to run the program on
    examples: a dollar sign, the integer part in groups of three digits,
    and two decimals, rounded to the nearest cent on the exact value of
    the number, a tie away from zero. *)
Module EnUS.

Definition digits (n : N) : string := NilZero.string_of_uint (N.to_uint n).

(** Commas between groups of three digits, counted from the right. *)
Fixpoint group (cs : list ascii) (n : nat) : list ascii :=
  match cs with
  | [] => []
  | ch :: rest =>
      match n with
      | O => ch :: rest
      | S n' =>
          if (0 <? List.length rest)%nat
             && (Nat.eqb (List.length rest mod 3) 0)
          then ch :: ","%char :: group rest n'
          else ch :: group rest n'
      end
  end.

Definition grouped (n : N) : string :=
  let cs := list_ascii_of_string (digits n) in
  string_of_list_ascii (group cs (List.length cs)).

(** The number of cents nearest to [m * 2^e]. *)
Definition cents (m : positive) (e : Z) : N :=
  match e with
  | Zneg k =>
      ((2 * (Npos m * 100) + 2 ^ Npos k) / 2 ^ (Npos k + 1))%N
  | _ => (Npos m * 100 * 2 ^ Z.to_N e)%N
  end.

Definition two_digits (n : N) : string :=
  if (n <? 10)%N then "0" +:+ digits n else digits n.

Definition infinity_sign : string :=
  String (ascii_of_nat 226)
    (String (ascii_of_nat 136) (String (ascii_of_nat 158) EmptyString)).

Definition currency (x : number) : string :=
  match x with
  | S754_nan => "$NaN"
  | S754_infinity s => (if s then "-$" else "$") +:+ infinity_sign
  | S754_zero s => if s then "-$0.00" else "$0.00"
  | S754_finite s m e =>
      let n := cents m e in
      (if s then "-$" else "$")
      +:+ grouped (n / 100) +:+ "." +:+ two_digits (n mod 100)
  end.

End EnUS.

Module Sample.

(** minimist, as far as [Minimist.parse] models it. *)
Definition minimist (args : list string) (opts : Minimist.options)
  : parsed :=
  default {| positionals := []; flags := [] |} (Minimist.parse args opts).

(** A brokerage that accepts every order and holds [positions]. *)
Definition brokerage_with (positions : list position) : brokerage :=
  {| createOrder := fun _ _ => Ok {| id := VString "61e69015" |};
     getBars := fun _ _ => Ok (Some {| c := VNumber (Num.of_Z 187) |});
     getPositions := fun _ => Ok positions |}.

Definition runtime_with (positions : list position) : runtime :=
  {| parseArgs := minimist;
     alpaca := brokerage_with positions;
     toLocaleString := EnUS.currency |}.

(** A fresh installation, and one after
    [alpaca configure --id=AK1 --secret=s3cr3t --mode=paper]. *)
Definition fresh : world := {| store := ∅; trace := [] |}.

Definition configured : world :=
  {| store := <["mode" := VString "paper"]>
                (<["secretKey" := VString "s3cr3t"]>
                   (<["keyId" := VString "AK1"]> ∅));
     trace := [] |}.

Definition client : alpaca_client :=
  {| keyId := VString "AK1"; secretKey := VString "s3cr3t";
     paper := true; baseUrl := VUndefined |}.

(** The position of the specification's example, [qty] being the number
    [10]. *)
Definition aapl_numeric_qty : position :=
  {| pos_symbol := VString "AAPL";
     pos_qty := VNumber (Num.of_Z 10);
     pos_cost_basis := VString "1000";
     pos_market_value := VString "1100";
     pos_unrealized_pl := VString "100" |}.

(** The same position as the brokerage sends it, every field a string. *)
Definition aapl : position :=
  {| pos_symbol := VString "AAPL";
     pos_qty := VString "10";
     pos_cost_basis := VString "1000";
     pos_market_value := VString "1100";
     pos_unrealized_pl := VString "100" |}.

End Sample.

(* ================================================================== *)
(** * Vocabulary of the properties *)

(** [config.set] under a guard, as a map update. *)
Definition set_if (key : string) (v : value) (m : gmap string value)
  : gmap string value :=
  if truthy v then <[key := v]> m else m.

(** The flag of [configure] that feeds each key of the store. *)
Definition configure_flags : list (string * string) :=
  [ ("id", "keyId"); ("secret", "secretKey"); ("mode", "mode");
    ("base-url", "baseUrl") ].

(** What one run of [configure] does to the outside. *)
Definition write_if (key : string) (v : value) : list event :=
  if truthy v then [ConfigSet key v] else [].

Definition configure_events (args : parsed) : list event :=
  (write_if "keyId" (arg args "id")
   ++ write_if "secretKey" (arg args "secret")
   ++ write_if "mode" (arg args "mode")
   ++ write_if "baseUrl" (arg args "base-url")
   ++ [ConsoleLog
         [Lit ("configured "
               +:+ String.concat ", "
                     (List.filter (fun key => negb (key =? "_"))
                                  (keys args)))]])%list.

(** The message of [getAlpaca]'s error. *)
Definition configuration_missing : text :=
  [Lit "No alpaca configuration found.
See 'alpaca help configure' for more information."].

(** The client [getAlpaca] builds from a store that holds credentials. *)
Definition client_of (w : world) : alpaca_client :=
  {| keyId := default VUndefined (store w !! "keyId");
     secretKey := default VUndefined (store w !! "secretKey");
     paper := strict_equals_string
                (default VUndefined (store w !! "mode")) "paper";
     baseUrl := default VUndefined (store w !! "baseUrl") |}.

(** The world after one more effect. *)
Definition after (w : world) (events : list event) : world :=
  {| store := store w; trace := (trace w ++ events)%list |}.

(** The names [cli] defines. *)
Definition command_names : list string :=
  ["configure"; "buy"; "sell"; "report"; "help"].

(** The store holds both credentials. *)
Definition has_credentials (w : world) : Prop :=
  truthy (default VUndefined (store w !! "keyId")) = true
  /\ truthy (default VUndefined (store w !! "secretKey")) = true.

(** The order the handler sends for [qty] shares of [symbol]. *)
Definition request_of (side : string) (args : parsed) (qty symbol : value)
  : order_request :=
  {| symbol := symbol; qty := qty; side := side;
     type := arg args "type";
     time_in_force := arg args "time-in-force";
     limit_price := arg args "limit-price";
     stop_price := arg args "stop-price";
     client_order_id := arg args "client-order-id" |}.

(** The handler [f] resolved [qty] and [symbol]: the first thing it does
    to the world is to place that order. *)
Definition places (f : parsed -> M unit) (side : string) (args : parsed)
  (w : world) (qty symbol : value) : Prop :=
  exists rest,
    trace (snd (f args w))
    = (trace w
       ++ CreateOrder (client_of w) (request_of side args qty symbol)
       :: rest)%list.

(** The handler [f] throws the usage error and leaves the world as it
    was. *)
Definition usage_error (f : parsed -> M unit) (usage : string)
  (args : parsed) (w : world) : Prop :=
  f args w = (Err (Error [Lit ("Usage: " +:+ usage)]), w).

(** The two commands that place orders, each with its usage text. *)
Definition order_commands : list (string * string) :=
  [ ("buy", BUY_USAGE); ("sell", SELL_USAGE) ].

(** The line a key of the schema adds to the report: none when its rule
    accepts what the target holds under the key. *)
Definition rule_line (target : parsed) (child : string * Joi.rule)
  : list string :=
  match Joi.violation (snd child) (Joi.item target (fst child)) with
  | Some reason => [Joi.worded (fst child) reason]
  | None => []
  end.

(** Every violation of the schema by the target, each rule judged on its
    own: the rules in the order of the schema, then the keys the schema
    does not name. *)
Definition violations (target : parsed) (s : Joi.schema) : list string :=
  (flat_map (rule_line target) s
   ++ map (fun k => Joi.worded k "is not allowed")
          (Joi.unknown_keys target s))%list.

Definition newline_char : ascii := ascii_of_nat 10.

(** The lines of a text. *)
Fixpoint lines (s : string) : list string :=
  match s with
  | EmptyString => [EmptyString]
  | String ch rest =>
      if Ascii.eqb ch newline_char then EmptyString :: lines rest
      else
        match lines rest with
        | l :: ls => String ch l :: ls
        | [] => [String ch EmptyString]
        end
  end.

Fixpoint one_line (s : string) : bool :=
  match s with
  | EmptyString => true
  | String ch rest => negb (Ascii.eqb ch newline_char) && one_line rest
  end.

Definition order_types : list string :=
  ["market"; "limit"; "stop"; "stop_limit"].
Definition order_times_in_force : list string :=
  ["day"; "gtc"; "opg"; "ioc"].

(** The parsed invocation of the specification's example
    [buy 1 AAPL --type=bogus --time-in-force=bogus]. *)
Definition bogus_order : parsed :=
  {| positionals := [ANumber Num.one; AString "AAPL"];
     flags := [("type", VString "bogus");
               ("time-in-force", VString "bogus")] |}.



(** The text [report] prints for the rows [rows], the sign [perfSign]
    and the total [total]. *)
Definition summary (rows : list string) (perfSign total : string) : string :=
  "
Portfolio:
  symbol     qty      cost     value      profit
" +:+ String.concat "
" rows +:+ "

Performance:
  " +:+ perfSign +:+ total +:+ "
  ".

(** A plus sign before a gain. *)
Definition sign_of (performance : number) : string :=
  if Num.ltb Num.zero performance then "+" else "".

(** Every position names its symbol and its quantity with strings. *)
Definition textual (pos : position) : Prop :=
  is_string (pos_symbol pos) = true /\ is_string (pos_qty pos) = true.

(** The four guards of [configure], case by case. *)
Ltac flag_cases args :=
  destruct (truthy (arg args "id")), (truthy (arg args "secret")),
    (truthy (arg args "mode")), (truthy (arg args "base-url")).

(** A membership in a list written out, case by case. *)
Ltac member_cases H :=
  simpl in H;
  repeat match type of H with
         | _ \/ _ => destruct H as [H|H]
         end;
  try contradiction; try (inversion H; subst; clear H).

(** ** Effects of a computation *)

Create HintDb effects.

(** Whatever the world, [m] only adds to the trace, and every event it
    adds satisfies [P]. *)
Definition appends {A} (m : M A) (P : event -> Prop) : Prop :=
  forall w, exists events,
    trace (snd (m w)) = (trace w ++ events)%list /\ Forall P events.

(** [m] leaves the configuration store as it finds it. *)
Definition keeps_store {A} (m : M A) : Prop :=
  forall w, store (snd (m w)) = store w.

(** The kinds of events. *)
Definition is_error_line (e : event) : Prop :=
  match e with ConsoleError _ => True | _ => False end.
Definition is_output (e : event) : Prop :=
  match e with ConsoleLog _ => True | _ => False end.

(** What each handler may do to the outside. *)
Definition order_event (e : event) : Prop :=
  match e with
  | CreateOrder _ _ | GetBars _ _ | ConsoleLog _ => True
  | _ => False
  end.
Definition report_event (e : event) : Prop :=
  match e with GetPositions _ | ConsoleLog _ => True | _ => False end.
Definition configure_event (e : event) : Prop :=
  match e with ConfigSet _ _ | ConsoleLog _ => True | _ => False end.

(** What the handlers of [cli] may do between them: anything but a line
    on the error stream. *)
Definition handler_event (e : event) : Prop := ~ is_error_line e.

(** What a run may do to the outside under the first argument
    [command], before the error handler: only [configure] writes to the
    store, only [buy] and [sell] place orders and ask for bars, only
    [report] asks for positions, and nothing is written on the error
    stream. *)
Definition allowed (command : option string) (e : event) : Prop :=
  match e with
  | ConfigSet _ _ => command = Some "configure"
  | CreateOrder _ _ | GetBars _ _ =>
      command = Some "buy" \/ command = Some "sell"
  | GetPositions _ => command = Some "report"
  | ConsoleLog _ => True
  | ConsoleError _ => False
  end.

(** The confirmation [order] prints, for the price text [priceText] and
    the brokerage's reply. *)
Definition confirmation (side : string) (args : parsed)
  (qty symbol : value) (priceText : text) (reply : order_reply) : text :=
  ([Lit "Placed a "; interp (arg args "type"); Lit " order to "; Lit side;
    Lit " "; interp qty; Lit " share";
    Lit (if more_than_one qty then "s" else "");
    Lit " of "; interp symbol; Lit " "]
   ++ priceText
   ++ [Lit ".

  order id:  "; interp (id reply)])%list.

(** The order types that carry their own price. *)
Definition priced_types : list string := ["stop_limit"; "limit"; "stop"].

(** A position whose symbol or quantity is no string. *)
Definition not_textual (pos : position) : Prop :=
  is_string (pos_symbol pos) = false \/ is_string (pos_qty pos) = false.

(** Further runtimes and invocations to run the program on. *)
Module Trial.

(** A brokerage that refuses every order. *)
Definition refusing : brokerage :=
  {| createOrder := fun _ _ => Err (Error [Lit "insufficient buying power"]);
     getBars := fun _ _ => Ok None;
     getPositions := fun _ => Ok [] |}.


Definition runtime_of (b : brokerage) : runtime :=
  {| parseArgs := Sample.minimist;
     alpaca := b;
     toLocaleString := EnUS.currency |}.

(** [buy AAPL] and [buy 2 AAPL --type=limit --limit-price=190], as
    parsed. *)
Definition market_order : parsed :=
  {| positionals := [AString "AAPL"];
     flags := [("type", VString "market");
               ("time-in-force", VString "gtc")] |}.

Definition limit_order : parsed :=
  {| positionals := [ANumber (Num.of_Z 2); AString "AAPL"];
     flags := [("type", VString "limit");
               ("limit-price", VNumber (Num.of_Z 190));
               ("time-in-force", VString "gtc")] |}.

(** A position whose profit does not read as a number. *)
Definition unreadable : position :=
  {| pos_symbol := VString "MSFT";
     pos_qty := VString "1";
     pos_cost_basis := VString "300";
     pos_market_value := VString "310";
     pos_unrealized_pl := VString "n/a" |}.

(** [configure --id=AK1 --secret=s3cr3t] and [configure --id=AK2], as
    parsed. *)
Definition first_keys : parsed :=
  {| positionals := [];
     flags := [("id", VString "AK1"); ("secret", VString "s3cr3t")] |}.

Definition second_id : parsed :=
  {| positionals := []; flags := [("id", VString "AK2")] |}.

End Trial.

(** What the store holds under [key] after a guarded write of [v]. *)
Definition written (v : value) (before : option value) : option value :=
  if truthy v then Some v else before.

(** What a whole run may do under the first argument [command]: what the
    command is for, and a line on the error stream. *)
Definition run_event (command : option string) (e : event) : Prop :=
  match e with
  | ConsoleError _ => True
  | _ => allowed command e
  end.

(** An order going out. *)
Definition placing (e : event) : bool :=
  match e with CreateOrder _ _ => true | _ => false end.


(* ================================================================== *)
(** * Properties *)

(** ** The configuration store *)

Lemma configure_store (args : parsed) (w : world) :
  store (snd (configure args w))
  = set_if "baseUrl" (arg args "base-url")
      (set_if "mode" (arg args "mode")
         (set_if "secretKey" (arg args "secret")
            (set_if "keyId" (arg args "id") (store w)))).
Proof.
  unfold configure, set_if, when, bind, config_set, console_log, emit, ret.
  flag_cases args;
    reflexivity.
Qed.

Lemma configure_returns (args : parsed) (w : world) :
  fst (configure args w) = Ok tt.
Proof.
  unfold configure, when, bind, config_set, console_log, emit, ret.
  flag_cases args;
    reflexivity.
Qed.

Lemma set_if_lookup_ne key v m k :
  key <> k -> set_if key v m !! k = m !! k.
Proof.
  intros Hne. unfold set_if. destruct (truthy v); [|reflexivity].
  by rewrite lookup_insert_ne.
Qed.

Lemma set_if_falsy key v m : truthy v = false -> set_if key v m = m.
Proof. intros H. unfold set_if. by rewrite H. Qed.

(** C9: running [configure] twice with the same parsed options leaves
    the store as running it once does. *)
Theorem configure_idempotent (args : parsed) (w : world) :
  store (snd (configure args (snd (configure args w))))
  = store (snd (configure args w)).
Proof.
  rewrite !configure_store. unfold set_if.
  flag_cases args;
    try reflexivity;
    apply map_eq; intros k; rewrite !lookup_insert;
    repeat case_decide; congruence.
Qed.

Lemma configure_trace (args : parsed) (w : world) :
  trace (snd (configure args w)) = (trace w ++ configure_events args)%list.
Proof.
  unfold configure, configure_events, write_if, when, bind, config_set,
    console_log, emit, ret.
  flag_cases args;
    simpl; rewrite <- ?app_assoc; reflexivity.
Qed.

Lemma write_if_other key key' v v' :
  key <> key' -> ~ In (ConfigSet key' v') (write_if key v).
Proof.
  intros Hne. unfold write_if. destruct (truthy v); simpl; [|tauto].
  intros [E|[]]. inversion E. congruence.
Qed.

Lemma write_if_falsy key v : truthy v = false -> write_if key v = [].
Proof. intros H. unfold write_if. by rewrite H. Qed.

(** C10: a key of the store whose flag is absent or falsy in the parsed
    options keeps its value, and [configure] does not write to it; with
    none of the four flags truthy the whole store is unchanged. *)
Theorem configure_frame (args : parsed) (w : world) :
  (forall flag key,
      In (flag, key) configure_flags ->
      truthy (arg args flag) = false ->
      store (snd (configure args w)) !! key = store w !! key
      /\ exists events,
          trace (snd (configure args w)) = (trace w ++ events)%list
          /\ forall v, ~ In (ConfigSet key v) events)
  /\ ((forall flag key, In (flag, key) configure_flags ->
                        truthy (arg args flag) = false) ->
      store (snd (configure args w)) = store w).
Proof.
  split.
  - intros flag key Hin Hf. split.
    + rewrite configure_store.
      member_cases Hin;
        repeat first
          [ rewrite (set_if_falsy _ _ _ Hf)
          | rewrite set_if_lookup_ne by discriminate ];
        reflexivity.
    + exists (configure_events args). split; [apply configure_trace|].
      intros v. unfold configure_events. rewrite !in_app_iff.
      member_cases Hin;
        rewrite (write_if_falsy _ _ Hf);
        intros [H|[H|[H|[H|H]]]];
        try (revert H; apply write_if_other; discriminate);
        simpl in H; intuition discriminate.
  - intros Hall. rewrite configure_store.
    rewrite !set_if_falsy; [reflexivity| | | |];
      eapply Hall; simpl; eauto.
Qed.

Lemma configure_frame_witness :
  truthy (arg {| positionals := []; flags := [("mode", VString "paper")] |}
              "id") = false
  /\ store (snd (configure
                   {| positionals := [];
                      flags := [("mode", VString "paper")] |}
                   Sample.configured)) !! "keyId"
     = store Sample.configured !! "keyId".
Proof.
  split; [reflexivity|].
  apply (proj1 (configure_frame
                  {| positionals := []; flags := [("mode", VString "paper")] |}
                  Sample.configured) "id" "keyId").
  - simpl. auto.
  - reflexivity.
Defined.

(** ** Credentials *)

Lemma getAlpaca_unconfigured (w : world) :
  truthy (default VUndefined (store w !! "keyId")) = false
  \/ truthy (default VUndefined (store w !! "secretKey")) = false ->
  getAlpaca w = (Err (Error configuration_missing), w).
Proof.
  unfold getAlpaca, bind, config_get, throw.
  intros [H|H]; rewrite H; simpl; rewrite ?orb_true_r; reflexivity.
Qed.

Lemma getAlpaca_configured (w : world) :
  truthy (default VUndefined (store w !! "keyId")) = true ->
  truthy (default VUndefined (store w !! "secretKey")) = true ->
  getAlpaca w = (Ok (client_of w), w).
Proof.
  unfold getAlpaca, bind, config_get, throw, ret, client_of.
  intros H1 H2. rewrite H1, H2. reflexivity.
Qed.

(** C7: when the store lacks [keyId] or [secretKey], each of [buy],
    [sell] and [report] throws the error that points to
    ['alpaca help configure'], and the world is as it was: no call to
    the brokerage was made and nothing was printed. *)
Theorem credentials_required (rt : runtime) (args : parsed) (w : world) :
  store w !! "keyId" = None \/ store w !! "secretKey" = None ->
  forall name entry,
    In (name, entry) (cli rt) ->
    In name ["buy"; "sell"; "report"] ->
    fn entry args w
    = (Err (Error [Lit "No alpaca configuration found.
See 'alpaca help configure' for more information."]), w).
Proof.
  intros Hlacks name entry Hin Hname.
  assert (Hg : getAlpaca w = (Err (Error configuration_missing), w)).
  { apply getAlpaca_unconfigured.
    destruct Hlacks as [H|H]; rewrite H; auto. }
  member_cases Hin;
    simpl in Hname; try (exfalso; intuition discriminate);
    simpl; unfold order, report, bind; rewrite Hg; reflexivity.
Qed.

Lemma credentials_required_witness :
  store Sample.fresh !! "keyId" = None
  /\ order (Sample.runtime_with []) "buy" BUY_USAGE
           {| positionals := [AString "AAPL"]; flags := [] |} Sample.fresh
     = (Err (Error [Lit "No alpaca configuration found.
See 'alpaca help configure' for more information."]), Sample.fresh).
Proof.
  split; [reflexivity|].
  apply (credentials_required (Sample.runtime_with [])
           {| positionals := [AString "AAPL"]; flags := [] |} Sample.fresh
           (or_introl eq_refl) "buy"
           {| options := orderOptions; schema := Some orderSchema;
              fn := order (Sample.runtime_with []) "buy" BUY_USAGE |}).
  - simpl. auto.
  - simpl. auto.
Defined.

(** ** Dispatch *)

Lemma select_own (rt : runtime) (name : string) (entry : command) :
  assoc name (cli rt) = Some entry -> select rt (Some name) = Entry entry.
Proof. intros H. unfold select, js_get. simpl default. by rewrite H. Qed.

Lemma assoc_none {A} (k : string) (l : list (string * A)) :
  ~ In k (map fst l) -> assoc k l = None.
Proof.
  induction l as [|[k' a] l IH]; intros Hn; [reflexivity|].
  cbn [assoc]. destruct (String.eqb_spec k' k) as [E|_].
  - exfalso. apply Hn. left. exact E.
  - apply IH. intros Hin. apply Hn. right. exact Hin.
Qed.

Lemma assoc_cli_none (rt : runtime) (name : string) :
  ~ In name command_names -> assoc name (cli rt) = None.
Proof. intros Hn. apply assoc_none. exact Hn. Qed.

(** A first argument that is neither a command nor a name that objects
    inherit selects [cli.help]; so does a missing first argument. *)
Lemma select_unknown (rt : runtime) (name : string) :
  ~ In name command_names ->
  inherited name = false ->
  select rt (Some name) = Entry cli_help.
Proof.
  intros Hn Hi. unfold select, js_get. simpl default.
  rewrite (assoc_cli_none rt name Hn), Hi. reflexivity.
Qed.

Lemma select_missing (rt : runtime) : select rt None = Entry cli_help.
Proof. reflexivity. Qed.

(** C5, at the first argument [constructor]: it is none of the five
    commands, yet [cli[command]] finds the inherited property of that
    name, so [cli.help] is not selected, and the run ends in the type
    error of calling [action.fn]. *)
Theorem inherited_name_is_not_routed_to_help
  (rt : runtime) (node script : string) (argv : list string) (w : world) :
  ~ In "constructor" command_names
  /\ select rt (Some "constructor") = Builtin "constructor"
  /\ select rt (Some "constructor") <> Entry cli_help
  /\ main rt (node :: script :: "constructor" :: argv) w
     = (Ok tt, after w [ConsoleError [Lit "action.fn is not a function"]]).
Proof.
  split; [|split; [|split]].
  - simpl. intuition discriminate.
  - reflexivity.
  - discriminate.
  - reflexivity.
Qed.

(** ** help *)

Lemma help_no_topic (flags : list (string * value)) (w : world) :
  help {| positionals := []; flags := flags |} w
  = (Ok tt, after w [ConsoleLog [Lit HELP]]).
Proof. reflexivity. Qed.

Lemma help_known_topic (name usage : string) (rest : list atom)
  (flags : list (string * value)) (w : world) :
  In (name, usage) HELP_DETAILS ->
  help {| positionals := AString name :: rest; flags := flags |} w
  = (Ok tt, after w [ConsoleLog [Lit usage]]).
Proof.
  intros Hin. member_cases Hin; reflexivity.
Qed.

Lemma help_buy (w : world) :
  help {| positionals := [AString "buy"]; flags := [] |} w
  = (Ok tt, after w [ConsoleLog [Lit (BUY_USAGE +:+ "

Buys a stock")]]).
Proof. reflexivity. Qed.

Lemma help_detail_unknown (name : string) :
  ~ In name command_names -> inherited name = false ->
  help_detail (VString name) = VUndefined.
Proof.
  intros Hn Hi. unfold help_detail, js_get. rewrite Hi.
  rewrite (assoc_none name HELP_DETAILS Hn). reflexivity.
Qed.

(** A topic that is not empty, not a command and not a name that
    objects inherit is refused by name. *)
Lemma help_unknown_topic (name : string) (rest : list atom)
  (flags : list (string * value)) (w : world) :
  name <> "" -> ~ In name command_names -> inherited name = false ->
  help {| positionals := AString name :: rest; flags := flags |} w
  = (Err (Error [Lit "'"; Lit name;
                 Lit "' is not an alpaca command. See 'alpaca help'"]), w).
Proof.
  intros Hne Hn Hi. unfold help, element.
  cbn [positionals nth_error value_of].
  assert (Ht : truthy (VString name) = true).
  { simpl. destruct (String.eqb_spec name ""); [contradiction|reflexivity]. }
  rewrite Ht, (help_detail_unknown name Hn Hi). reflexivity.
Qed.

(** C6, at the topics [constructor], [0] and the empty text: none is a
    command, yet [help] throws for none of them.  [help constructor]
    prints the built-in that [HELP_DETAILS] inherits under that name;
    [help 0] and [help ''] print the list of commands. *)
Theorem help_accepts_unrecognized_topics
  (flags : list (string * value)) (w : world) :
  ~ In "constructor" command_names
  /\ help {| positionals := [AString "constructor"]; flags := flags |} w
     = (Ok tt, after w [ConsoleLog [Inspect (VNative "constructor")]])
  /\ help {| positionals := [ANumber Num.zero]; flags := flags |} w
     = (Ok tt, after w [ConsoleLog [Lit HELP]])
  /\ help {| positionals := [AString ""]; flags := flags |} w
     = (Ok tt, after w [ConsoleLog [Lit HELP]]).
Proof.
  split; [|split; [|split]]; try reflexivity.
  simpl. intuition discriminate.
Qed.

(** ** Validation before the handler *)

(** C4: when the selected command has a schema and the parsed
    invocation fails it, the whole run is one line on the error stream,
    the message of the validation failure: the store is untouched and
    the handler has printed nothing and called nothing.  [report] and
    [help] have no schema: their handler runs on whatever was parsed. *)
Theorem validation_failure_aborts
  (rt : runtime) (node script : string) (args : list string) (w : world) :
  (forall s e,
      action_schema (select rt (head args)) = Some s ->
      assertSchema
        (parseArgs rt (tail args)
           (default Minimist.no_options
              (action_options (select rt (head args))))) s = Err e ->
      main rt (node :: script :: args) w
      = (Ok tt, after w [ConsoleError (message e)]))
  /\ (forall argv,
         action_schema (select rt (Some "report")) = None
         /\ dispatch rt ("report" :: argv) w
            = report rt (parseArgs rt argv (minimistOpts [])) w)
  /\ (forall argv,
         action_schema (select rt (Some "help")) = None
         /\ dispatch rt ("help" :: argv) w
            = help (parseArgs rt argv (minimistOpts [])) w).
Proof.
  split; [|split].
  - intros s e Hs He.
    change (main rt (node :: script :: args) w)
      with (catch (dispatch rt args)
                  (fun err => console_error (message err)) w).
    unfold catch, dispatch. cbv zeta.
    rewrite Hs. unfold bind, lift. rewrite He. reflexivity.
  - intros argv. split; [reflexivity|].
    unfold dispatch. simpl. unfold bind, ret.
    destruct (report rt _ w) as [[|] ?]; reflexivity.
  - intros argv. split; [reflexivity|].
    unfold dispatch. simpl. unfold bind, ret.
    destruct (help _ w) as [[|] ?]; reflexivity.
Qed.

(** ** Quantity and symbol *)

Lemma resolve_single_string (usage s : string) :
  resolve usage [AString s] = Ok (VNumber Num.one, VString s).
Proof. reflexivity. Qed.

Lemma resolve_pair (usage : string) (q s : atom) (rest : list atom) :
  truthy (value_of q) = true -> truthy (value_of s) = true ->
  resolve usage (q :: s :: rest) = Ok (value_of q, value_of s).
Proof.
  intros Hq Hs. unfold resolve, element. cbn [nth_error].
  rewrite Hq, Hs. reflexivity.
Qed.

Lemma resolve_empty (usage : string) :
  resolve usage [] = Err (Error [Lit ("Usage: " +:+ usage)]).
Proof. reflexivity. Qed.

Lemma resolve_single_number (usage : string) (x : number) :
  resolve usage [ANumber x] = Err (Error [Lit ("Usage: " +:+ usage)]).
Proof.
  unfold resolve, element. cbn [nth_error value_of truthy is_string negb].
  rewrite andb_false_r, orb_true_r. reflexivity.
Qed.

Lemma resolve_falsy_quantity (usage : string) (q s : atom) (rest : list atom) :
  truthy (value_of q) = false -> truthy (value_of s) = true ->
  resolve usage (q :: s :: rest) = Err (Error [Lit ("Usage: " +:+ usage)]).
Proof.
  intros Hq Hs. unfold resolve, element. cbn [nth_error].
  rewrite Hq, Hs. reflexivity.
Qed.

Lemma resolve_number_then_falsy (usage : string) (x : number) (s : atom)
  (rest : list atom) :
  truthy (value_of s) = false ->
  resolve usage (ANumber x :: s :: rest)
  = Err (Error [Lit ("Usage: " +:+ usage)]).
Proof.
  intros Hs. unfold resolve, element. cbn [nth_error value_of is_string].
  rewrite Hs, andb_false_r, orb_true_r. reflexivity.
Qed.

(** A second token that is [0] or empty counts as no symbol: a string
    before it is taken as the symbol, for one share. *)
Lemma resolve_string_then_falsy (usage q : string) (s : atom)
  (rest : list atom) :
  truthy (value_of s) = false ->
  resolve usage (AString q :: s :: rest) = Ok (VNumber Num.one, VString q).
Proof.
  intros Hs. unfold resolve, element. cbn [nth_error value_of is_string].
  rewrite Hs. reflexivity.
Qed.

Lemma order_unresolved (rt : runtime) (side usage : string) (args : parsed)
  (w : world) (e : exn) :
  has_credentials w ->
  resolve usage (positionals args) = Err e ->
  order rt side usage args w = (Err e, w).
Proof.
  intros [Hk Hs] Hr. unfold order, bind.
  rewrite (getAlpaca_configured w Hk Hs). unfold lift. rewrite Hr.
  reflexivity.
Qed.

Lemma order_resolved (rt : runtime) (side usage : string) (args : parsed)
  (w : world) (qty symbol : value) :
  has_credentials w ->
  resolve usage (positionals args) = Ok (qty, symbol) ->
  places (order rt side usage) side args w qty symbol.
Proof.
  intros [Hk Hs] Hr. unfold places, order, bind.
  rewrite (getAlpaca_configured w Hk Hs). unfold lift at 1. rewrite Hr.
  fold (request_of side args qty symbol).
  unfold call, bind, emit, lift.
  destruct (createOrder (alpaca rt) (client_of w)
              (request_of side args qty symbol)) as [reply|e];
    [|eexists; reflexivity].
  destruct (strict_equals_string (arg args "type") "stop_limit");
    [eexists; cbn; rewrite <- app_assoc; reflexivity|].
  destruct (strict_equals_string (arg args "type") "limit");
    [eexists; cbn; rewrite <- app_assoc; reflexivity|].
  destruct (strict_equals_string (arg args "type") "stop");
    [eexists; cbn; rewrite <- app_assoc; reflexivity|].
  unfold getMarketPrice, call, bind, emit, lift.
  destruct (getBars (alpaca rt) (client_of w) symbol) as [[b|]|e];
    eexists; cbn; rewrite <- ?app_assoc; reflexivity.
Qed.

(** C1, as the code has it: with credentials in the store, [buy] and
    [sell] take a single string token as the symbol, for one share;
    take the first two tokens as quantity and symbol when both are
    truthy (neither [0] nor empty); and throw the usage error, with the
    command's usage text, for no token, for a single numeric token, for
    a falsy first token before a truthy second one, and for a numeric
    first token before a falsy second one. *)
Theorem order_resolution (rt : runtime) (name usage : string)
  (entry : command) (args : parsed) (w : world) :
  In (name, usage) order_commands ->
  assoc name (cli rt) = Some entry ->
  has_credentials w ->
  (forall s, positionals args = [AString s] ->
             places (fn entry) name args w (VNumber Num.one) (VString s))
  /\ (forall q s rest,
         positionals args = q :: s :: rest ->
         truthy (value_of q) = true -> truthy (value_of s) = true ->
         places (fn entry) name args w (value_of q) (value_of s))
  /\ (positionals args = [] -> usage_error (fn entry) usage args w)
  /\ (forall x, positionals args = [ANumber x] ->
                usage_error (fn entry) usage args w)
  /\ (forall q s rest,
         positionals args = q :: s :: rest ->
         truthy (value_of q) = false -> truthy (value_of s) = true ->
         usage_error (fn entry) usage args w)
  /\ (forall x s rest,
         positionals args = ANumber x :: s :: rest ->
         truthy (value_of s) = false ->
         usage_error (fn entry) usage args w).
Proof.
  intros Hin Hentry Hcred.
  assert (Hfn : fn entry = order rt name usage).
  { member_cases Hin; cbn in Hentry; inversion Hentry; reflexivity. }
  rewrite Hfn. unfold usage_error.
  repeat split.
  - intros s Hp. apply order_resolved; [exact Hcred|].
    rewrite Hp. apply resolve_single_string.
  - intros q s rest Hp Hq Hs. apply order_resolved; [exact Hcred|].
    rewrite Hp. apply resolve_pair; assumption.
  - intros Hp. apply order_unresolved; [exact Hcred|].
    rewrite Hp. apply resolve_empty.
  - intros x Hp. apply order_unresolved; [exact Hcred|].
    rewrite Hp. apply resolve_single_number.
  - intros q s rest Hp Hq Hs. apply order_unresolved; [exact Hcred|].
    rewrite Hp. apply resolve_falsy_quantity; assumption.
  - intros x s rest Hp Hs. apply order_unresolved; [exact Hcred|].
    rewrite Hp. apply resolve_number_then_falsy; assumption.
Qed.

Lemma order_resolution_witness :
  has_credentials Sample.configured
  /\ places (order (Sample.runtime_with []) "buy" BUY_USAGE) "buy"
            {| positionals := [ANumber (Num.of_Z 5); AString "AAPL"];
               flags := [("type", VString "market");
                         ("time-in-force", VString "gtc")] |}
            Sample.configured (VNumber (Num.of_Z 5)) (VString "AAPL").
Proof.
  split; [split; reflexivity|].
  apply (proj1 (proj2
           (order_resolution (Sample.runtime_with []) "buy" BUY_USAGE
              {| options := orderOptions; schema := Some orderSchema;
                 fn := order (Sample.runtime_with []) "buy" BUY_USAGE |}
              {| positionals := [ANumber (Num.of_Z 5); AString "AAPL"];
                 flags := [("type", VString "market");
                           ("time-in-force", VString "gtc")] |}
              Sample.configured
              (or_introl eq_refl) eq_refl (conj eq_refl eq_refl)))
         (ANumber (Num.of_Z 5)) (AString "AAPL") []);
    reflexivity.
Defined.

(** C1 as stated, at [buy 0 AAPL] and at [buy AAPL 0]: two positional
    tokens are present, yet the first run ends in the usage error, and
    the second takes the first token as the symbol, for one share.  And
    at [buy] with no token in a fresh installation: the error is the one
    about the missing configuration, not the usage error, since
    [getAlpaca] runs before the tokens are looked at. *)
Lemma two_tokens_not_always_quantity_and_symbol :
  Minimist.parse ["0"; "AAPL"] orderOptions
  = Some {| positionals := [ANumber Num.zero; AString "AAPL"];
            flags := [("type", VString "market");
                      ("time-in-force", VString "gtc")] |}
  /\ order (Sample.runtime_with []) "buy" BUY_USAGE
           {| positionals := [ANumber Num.zero; AString "AAPL"];
              flags := [("type", VString "market");
                        ("time-in-force", VString "gtc")] |}
           Sample.configured
     = (Err (Error [Lit ("Usage: " +:+ BUY_USAGE)]), Sample.configured)
  /\ resolve BUY_USAGE [ANumber Num.zero; AString "AAPL"]
     <> Ok (VNumber Num.zero, VString "AAPL")
  /\ Minimist.parse ["AAPL"; "0"] orderOptions
     = Some {| positionals := [AString "AAPL"; ANumber Num.zero];
               flags := [("type", VString "market");
                         ("time-in-force", VString "gtc")] |}
  /\ resolve BUY_USAGE [AString "AAPL"; ANumber Num.zero]
     = Ok (VNumber Num.one, VString "AAPL")
  /\ order (Sample.runtime_with []) "buy" BUY_USAGE
           {| positionals := [];
              flags := [("type", VString "market");
                        ("time-in-force", VString "gtc")] |}
           Sample.fresh
     = (Err (Error configuration_missing), Sample.fresh).
Proof.
  repeat split; try reflexivity. discriminate.
Qed.

(** ** Validation *)

Lemma check_children_all (s : Joi.schema) (target : parsed)
  (errors : list string) :
  Joi.check_children false s target errors
  = ((errors ++ flat_map (rule_line target) s)%list, false).
Proof.
  revert errors. induction s as [|[key r] s IH]; intros errors.
  - cbn. by rewrite app_nil_r.
  - cbn [Joi.check_children flat_map]. unfold rule_line at 1.
    cbn [fst snd].
    destruct (Joi.violation r (Joi.item target key)) as [reason|].
    + rewrite IH, <- app_assoc. reflexivity.
    + rewrite IH. reflexivity.
Qed.

Lemma validate_all (target : parsed) (s : Joi.schema) :
  Joi.validate target s
    {| Joi.abortEarly := false; Joi.allowUnknown := false |}
  = violations target s.
Proof.
  unfold Joi.validate, violations. cbn [Joi.abortEarly Joi.allowUnknown].
  rewrite check_children_all. reflexivity.
Qed.

(** With [abortEarly] the validator stops at the first violation. *)
Lemma check_children_first (s : Joi.schema) (target : parsed)
  (errors : list string) :
  Joi.check_children true s target errors
  = ((errors ++ firstn 1 (flat_map (rule_line target) s))%list,
     match flat_map (rule_line target) s with [] => false | _ => true end).
Proof.
  induction s as [|[key r] s IH].
  - cbn. by rewrite app_nil_r.
  - cbn [Joi.check_children flat_map]. unfold rule_line at 1 3.
    cbn [fst snd].
    destruct (Joi.violation r (Joi.item target key)) as [reason|].
    + reflexivity.
    + rewrite IH. reflexivity.
Qed.

Lemma validate_abort_early (target : parsed) (s : Joi.schema) :
  Joi.validate target s
    {| Joi.abortEarly := true; Joi.allowUnknown := false |}
  = firstn 1 (violations target s).
Proof.
  unfold Joi.validate, violations. cbn [Joi.abortEarly Joi.allowUnknown].
  rewrite check_children_first.
  destruct (flat_map (rule_line target) s) as [|l ls]; reflexivity.
Qed.

Lemma lines_one_line (s : string) : one_line s = true -> lines s = [s].
Proof.
  induction s as [|ch s IH]; [reflexivity|].
  cbn [one_line lines]. intros H. apply andb_prop in H. destruct H as [Hc Hs].
  apply negb_true_iff in Hc. rewrite Hc, (IH Hs). reflexivity.
Qed.

Lemma lines_append (s t : string) :
  one_line s = true ->
  lines (s +:+ newline +:+ t) = s :: lines t.
Proof.
  induction s as [|ch s IH]; intros H.
  - reflexivity.
  - cbn [one_line] in H. apply andb_prop in H. destruct H as [Hc Hs].
    apply negb_true_iff in Hc.
    change (String ch s +:+ newline +:+ t)
      with (String ch (s +:+ newline +:+ t)).
    cbn [lines]. rewrite Hc, (IH Hs). reflexivity.
Qed.

(** The lines of a message that joins one-line items are the items. *)
Lemma lines_concat (l : string) (ls : list string) :
  forallb one_line (l :: ls) = true ->
  lines (String.concat newline (l :: ls)) = l :: ls.
Proof.
  revert l. induction ls as [|l' ls IH]; intros l H.
  - cbn in H. rewrite andb_true_r in H. apply lines_one_line. exact H.
  - cbn [forallb] in H. apply andb_prop in H. destruct H as [Hl H].
    cbn [String.concat]. rewrite (lines_append _ _ Hl).
    f_equal. apply IH. exact H.
Qed.

Lemma existsb_eqb_false (t : string) (l : list string) :
  ~ In t l -> existsb (String.eqb t) l = false.
Proof.
  induction l as [|x l IH]; intros Hn; [reflexivity|].
  cbn [existsb]. destruct (String.eqb_spec t x) as [E|_].
  - exfalso. apply Hn. left. symmetry. exact E.
  - apply IH. intros Hin. apply Hn. right. exact Hin.
Qed.

(** C2: [assertSchema] judges every rule of the schema, whatever the
    rules before it found: it passes when no rule is violated, and
    otherwise throws an error whose message joins, with newlines, the
    line of every violation; when no key holds a newline these are the
    lines of the message.  For an order whose [type] and
    [time-in-force] are both outside what is allowed, the message holds
    the line of each, and the two lines differ. *)
Theorem validator_reports_every_violation (value : parsed) (s : Joi.schema) :
  assertSchema value s
  = match violations value s with
    | [] => Ok (Joi.converted value s)
    | found => Err (Error [Lit (String.concat newline found)])
    end
  /\ (violations value s <> [] ->
      forallb one_line (violations value s) = true ->
      exists msg,
        assertSchema value s = Err (Error [Lit msg])
        /\ lines msg = violations value s)
  /\ (forall t f,
         arg value "type" = VString t ->
         arg value "time-in-force" = VString f ->
         ~ In t order_types -> ~ In f order_times_in_force ->
         exists found,
           assertSchema value orderSchema
           = Err (Error [Lit (String.concat newline found)])
           /\ In (Joi.worded "type"
                    "must be one of [market, limit, stop, stop_limit]") found
           /\ In (Joi.worded "time-in-force"
                    "must be one of [day, gtc, opg, ioc]") found
           /\ Joi.worded "type"
                "must be one of [market, limit, stop, stop_limit]"
              <> Joi.worded "time-in-force"
                   "must be one of [day, gtc, opg, ioc]").
Proof.
  assert (Hassert : forall s',
             assertSchema value s'
             = match violations value s' with
               | [] => Ok (Joi.converted value s')
               | found => Err (Error [Lit (String.concat newline found)])
               end).
  { intros s'. unfold assertSchema. rewrite validate_all. reflexivity. }
  split; [apply Hassert|split].
  - intros Hne Hone. rewrite Hassert.
    destruct (violations value s) as [|l ls] eqn:E; [contradiction|].
    eexists. split; [reflexivity|]. apply lines_concat. exact Hone.
  - intros t f Ht Hf Hnt Hnf.
    assert (Htype : rule_line value
                      ("type", required (Joi.Only order_types))
                    = [Joi.worded "type"
                         "must be one of [market, limit, stop, stop_limit]"]).
    { unfold rule_line, Joi.item. cbn [fst snd]. cbn [String.eqb Ascii.eqb Bool.eqb].
      rewrite Ht. unfold Joi.violation, required.
      cbn [Joi.required Joi.rule_kind].
      rewrite (existsb_eqb_false t order_types Hnt). reflexivity. }
    assert (Htif : rule_line value
                     ("time-in-force",
                      required (Joi.Only order_times_in_force))
                   = [Joi.worded "time-in-force"
                        "must be one of [day, gtc, opg, ioc]"]).
    { unfold rule_line, Joi.item. cbn [fst snd]. cbn [String.eqb Ascii.eqb Bool.eqb].
      rewrite Hf. unfold Joi.violation, required.
      cbn [Joi.required Joi.rule_kind].
      rewrite (existsb_eqb_false f order_times_in_force Hnf). reflexivity. }
    rewrite Hassert.
    assert (Hv : exists before after,
               violations value orderSchema
               = (before
                  ++ Joi.worded "type"
                       "must be one of [market, limit, stop, stop_limit]"
                  :: Joi.worded "time-in-force"
                       "must be one of [day, gtc, opg, ioc]"
                  :: after)%list).
    { unfold violations, orderSchema. cbn [flat_map].
      unfold order_types, order_times_in_force in Htype, Htif.
      rewrite Htype, Htif, <- app_assoc. cbn [app].
      eexists _, _. reflexivity. }
    destruct Hv as (before & after & Hv). rewrite Hv.
    exists (before
            ++ Joi.worded "type"
                 "must be one of [market, limit, stop, stop_limit]"
            :: Joi.worded "time-in-force"
                 "must be one of [day, gtc, opg, ioc]"
            :: after)%list.
    split; [destruct before; reflexivity|].
    split; [apply in_or_app; right; left; reflexivity|].
    split; [apply in_or_app; right; right; left; reflexivity|].
    discriminate.
Qed.

Lemma validator_reports_every_violation_witness :
  arg bogus_order "type" = VString "bogus"
  /\ arg bogus_order "time-in-force" = VString "bogus"
  /\ ~ In "bogus" order_types
  /\ ~ In "bogus" order_times_in_force
  /\ exists found,
      assertSchema bogus_order orderSchema
      = Err (Error [Lit (String.concat newline found)])
      /\ In (Joi.worded "type"
               "must be one of [market, limit, stop, stop_limit]") found
      /\ In (Joi.worded "time-in-force"
               "must be one of [day, gtc, opg, ioc]") found
      /\ Joi.worded "type"
           "must be one of [market, limit, stop, stop_limit]"
         <> Joi.worded "time-in-force"
              "must be one of [day, gtc, opg, ioc]".
Proof.
  assert (H1 : ~ In "bogus" order_types)
    by (simpl; intuition discriminate).
  assert (H2 : ~ In "bogus" order_times_in_force)
    by (simpl; intuition discriminate).
  split; [reflexivity|]. split; [reflexivity|].
  split; [exact H1|]. split; [exact H2|].
  exact (proj2 (proj2 (validator_reports_every_violation
                         bogus_order orderSchema))
               "bogus" "bogus" eq_refl eq_refl H1 H2).
Defined.

(** The example of the specification, as minimist parses it and as
    [assertSchema] answers it: two lines. *)
Example bogus_order_message :
  Minimist.parse ["1"; "AAPL"; "--type=bogus"; "--time-in-force=bogus"]
                 orderOptions
  = Some bogus_order
  /\ assertSchema bogus_order orderSchema
     = Err (Error
              [Lit (Joi.worded "type"
                      "must be one of [market, limit, stop, stop_limit]"
                    +:+ newline
                    +:+ Joi.worded "time-in-force"
                          "must be one of [day, gtc, opg, ioc]")])
  /\ Joi.validate bogus_order orderSchema
       {| Joi.abortEarly := true; Joi.allowUnknown := false |}
     = [Joi.worded "type"
          "must be one of [market, limit, stop, stop_limit]"].
Proof. repeat split; reflexivity. Qed.

(** ** Defaults *)






(** ** report *)

Lemma performance_of_nil : performance_of [] = Num.zero.
Proof. reflexivity. Qed.

Lemma performance_of_snoc (positions : list position) (pos : position) :
  performance_of (positions ++ [pos])
  = Num.add (performance_of positions) (parseFloat (pos_unrealized_pl pos)).
Proof. unfold performance_of. rewrite fold_left_app. reflexivity. Qed.

Lemma describe_textual (rt : runtime) (pos : position) :
  textual pos -> exists row, describe rt pos = Ok row.
Proof.
  intros [Hs Hq]. unfold describe.
  destruct (pos_symbol pos); try discriminate.
  destruct (pos_qty pos); try discriminate.
  eexists. reflexivity.
Qed.

Lemma describe_all_textual (rt : runtime) (positions : list position) :
  Forall textual positions ->
  exists rows, describe_all rt positions = Ok rows
               /\ List.length rows = List.length positions.
Proof.
  induction 1 as [|pos positions Hp _ [rows [IH Hlen]]].
  - exists []. split; reflexivity.
  - destruct (describe_textual rt pos Hp) as [row Hrow].
    exists (row :: rows). cbn [describe_all]. rewrite Hrow, IH.
    split; [reflexivity|]. cbn. by rewrite Hlen.
Qed.

Lemma report_rows (rt : runtime) (args : parsed) (w : world)
  (positions : list position) (rows : list string) :
  has_credentials w ->
  getPositions (alpaca rt) (client_of w) = Ok positions ->
  describe_all rt positions = Ok rows ->
  report rt args w
  = (Ok tt,
     after w [GetPositions (client_of w);
              ConsoleLog
                [Lit (summary rows
                        (sign_of (performance_of positions))
                        (toLocaleString rt (performance_of positions)))]]).
Proof.
  intros [Hk Hs] Hpos Hrows. unfold report, bind.
  rewrite (getAlpaca_configured w Hk Hs).
  unfold call, bind, emit, lift. rewrite Hpos. cbn [store trace].
  rewrite Hrows. unfold console_log, emit, after, summary, sign_of.
  cbn [store trace]. rewrite <- app_assoc. reflexivity.
Qed.

(** C8, as the code has it: when every position names its symbol and
    quantity with strings, [report] prints one row for each position and
    a total; the total is the running sum, from [0] and in the order of
    the positions, of [parseFloat] of each [unrealized_pl], in the
    runtime's currency format with a plus sign before a gain.  For the
    one position [AAPL] with the quantity ["10"], in a runtime that
    writes the three amounts as [en-US] does, the text has the row of
    [AAPL] and the total line [+$100.00]. *)
Theorem report_total (rt : runtime) (args : parsed) (w : world) :
  has_credentials w ->
  (forall positions,
      getPositions (alpaca rt) (client_of w) = Ok positions ->
      Forall textual positions ->
      exists rows,
        describe_all rt positions = Ok rows
        /\ List.length rows = List.length positions
        /\ report rt args w
           = (Ok tt,
              after w [GetPositions (client_of w);
                       ConsoleLog
                         [Lit (summary rows
                                 (sign_of (performance_of positions))
                                 (toLocaleString rt
                                    (performance_of positions)))]]))
  /\ performance_of [] = Num.zero
  /\ (forall positions pos,
         performance_of (positions ++ [pos])
         = Num.add (performance_of positions)
                   (parseFloat (pos_unrealized_pl pos)))
  /\ (getPositions (alpaca rt) (client_of w) = Ok [Sample.aapl] ->
      toLocaleString rt (Num.of_Z 1000) = "$1,000.00" ->
      toLocaleString rt (Num.of_Z 1100) = "$1,100.00" ->
      toLocaleString rt (Num.of_Z 100) = "$100.00" ->
      exists printed,
        report rt args w
        = (Ok tt,
           after w [GetPositions (client_of w); ConsoleLog [Lit printed]])
        /\ lines printed
           = [ "";
               "Portfolio:";
               "  symbol     qty      cost     value      profit";
               "    AAPL      10 $1,000.00 $1,100.00     $100.00";
               "";
               "Performance:";
               "  +$100.00";
               "  " ]).
Proof.
  intros Hcred. split; [|split; [|split]].
  - intros positions Hpos Htext.
    destruct (describe_all_textual rt positions Htext) as (rows & Hrows & Hlen).
    exists rows. split; [exact Hrows|]. split; [exact Hlen|].
    apply report_rows; assumption.
  - apply performance_of_nil.
  - apply performance_of_snoc.
  - intros Hpos H1000 H1100 H100.
    eexists. split.
    + apply (report_rows rt args w [Sample.aapl]); [exact Hcred|exact Hpos|].
      cbn [describe_all describe Sample.aapl pos_symbol pos_qty
             pos_cost_basis pos_market_value pos_unrealized_pl pad].
      reflexivity.
    + unfold sign_of, usd.
      change (performance_of [Sample.aapl]) with (Num.of_Z 100).
      change (parseFloat (VString "1000")) with (Num.of_Z 1000).
      change (parseFloat (VString "1100")) with (Num.of_Z 1100).
      change (parseFloat (VString "100")) with (Num.of_Z 100).
      rewrite H1000, H1100, H100. reflexivity.
Qed.

Lemma report_total_witness :
  has_credentials Sample.configured
  /\ exists printed,
      report (Sample.runtime_with [Sample.aapl])
             {| positionals := []; flags := [] |} Sample.configured
      = (Ok tt,
         after Sample.configured
           [GetPositions (client_of Sample.configured);
            ConsoleLog [Lit printed]])
      /\ lines printed
         = [ "";
             "Portfolio:";
             "  symbol     qty      cost     value      profit";
             "    AAPL      10 $1,000.00 $1,100.00     $100.00";
             "";
             "Performance:";
             "  +$100.00";
             "  " ].
Proof.
  assert (Hcred : has_credentials Sample.configured)
    by (split; reflexivity).
  split; [exact Hcred|].
  exact (proj2 (proj2 (proj2
           (report_total (Sample.runtime_with [Sample.aapl])
              {| positionals := []; flags := [] |} Sample.configured
              Hcred)))
         eq_refl eq_refl eq_refl eq_refl).
Defined.

(** C8 as stated, at the position of its example, whose quantity is the
    number [10]: [report] throws while it builds the row, since a number
    has no [padStart], and the run prints no row and no total. *)
Lemma report_numeric_quantity_throws :
  report (Sample.runtime_with [Sample.aapl_numeric_qty])
         {| positionals := []; flags := [] |} Sample.configured
  = (Err (TypeError [Lit "str.padStart is not a function"]),
     after Sample.configured [GetPositions Sample.client])
  /\ main (Sample.runtime_with [Sample.aapl_numeric_qty])
          ["node"; "alpaca"; "report"] Sample.configured
     = (Ok tt,
        after Sample.configured
          [GetPositions Sample.client;
           ConsoleError [Lit "str.padStart is not a function"]]).
Proof. split; reflexivity. Qed.

Lemma validation_failure_aborts_witness :
  action_schema (select (Sample.runtime_with []) (Some "buy"))
  = Some orderSchema
  /\ main (Sample.runtime_with [])
          ["node"; "alpaca"; "buy"; "AAPL"; "--type=bogus"] Sample.configured
     = (Ok tt,
        after Sample.configured
          [ConsoleError
             [Lit (Joi.worded "type"
                     "must be one of [market, limit, stop, stop_limit]")]]).
Proof.
  split; [reflexivity|].
  exact (proj1 (validation_failure_aborts (Sample.runtime_with [])
                  "node" "alpaca" ["buy"; "AAPL"; "--type=bogus"]
                  Sample.configured)
               orderSchema
               (Error [Lit (Joi.worded "type"
                              "must be one of [market, limit, stop, stop_limit]")])
               eq_refl eq_refl).
Defined.

(** ** Runs *)

(** [alpaca buy AAPL] with credentials: one share at the market, priced
    by the latest bar. *)
Example run_buy_AAPL :
  main (Sample.runtime_with []) ["node"; "alpaca"; "buy"; "AAPL"]
       Sample.configured
  = (Ok tt,
     after Sample.configured
       [ CreateOrder Sample.client
           {| symbol := VString "AAPL"; qty := VNumber Num.one;
              side := "buy"; type := VString "market";
              time_in_force := VString "gtc";
              limit_price := VUndefined; stop_price := VUndefined;
              client_order_id := VUndefined |};
         GetBars Sample.client (VString "AAPL");
         ConsoleLog
           [ Lit "Placed a "; Lit "market"; Lit " order to "; Lit "buy";
             Lit " "; Interp (VNumber Num.one); Lit " share"; Lit "";
             Lit " of "; Lit "AAPL"; Lit " "; Lit "at $";
             Interp (VNumber (Num.of_Z 187));
             Lit ".

  order id:  "; Lit "61e69015" ] ]).
Proof. reflexivity. Qed.

(** [alpaca sell 5 AAPL --type=limit --limit-price=190]. *)
Example run_sell_limit :
  trace (snd (main (Sample.runtime_with [])
                   ["node"; "alpaca"; "sell"; "5"; "AAPL"; "--type=limit";
                    "--limit-price=190"]
                   Sample.configured))
  = [ CreateOrder Sample.client
        {| symbol := VString "AAPL"; qty := VNumber (Num.of_Z 5);
           side := "sell"; type := VString "limit";
           time_in_force := VString "gtc";
           limit_price := VNumber (Num.of_Z 190); stop_price := VUndefined;
           client_order_id := VUndefined |};
      ConsoleLog
        [ Lit "Placed a "; Lit "limit"; Lit " order to "; Lit "sell";
          Lit " "; Interp (VNumber (Num.of_Z 5)); Lit " share"; Lit "s";
          Lit " of "; Lit "AAPL"; Lit " "; Lit "at $";
          Interp (VNumber (Num.of_Z 190));
          Lit ".

  order id:  "; Lit "61e69015" ] ].
Proof. reflexivity. Qed.

(** [alpaca configure --mode=paper], once and twice. *)
Example run_configure_mode_paper :
  main (Sample.runtime_with []) ["node"; "alpaca"; "configure"; "--mode=paper"]
       Sample.fresh
  = (Ok tt,
     {| store := <["mode" := VString "paper"]> ∅;
        trace := [ConfigSet "mode" (VString "paper");
                  ConsoleLog [Lit "configured mode"]] |})
  /\ store (snd (main (Sample.runtime_with [])
                      ["node"; "alpaca"; "configure"; "--mode=paper"]
                      (snd (main (Sample.runtime_with [])
                                 ["node"; "alpaca"; "configure";
                                  "--mode=paper"]
                                 Sample.fresh))))
     = <["mode" := VString "paper"]> ∅.
Proof. split; reflexivity. Qed.

(** [alpaca frobnicate] and [alpaca] alone print the list of commands;
    [alpaca help unknown-command] names the topic it refuses. *)
Example run_fallback_to_help :
  main (Sample.runtime_with []) ["node"; "alpaca"; "frobnicate"] Sample.fresh
  = (Ok tt, after Sample.fresh [ConsoleLog [Lit HELP]])
  /\ main (Sample.runtime_with []) ["node"; "alpaca"] Sample.fresh
     = (Ok tt, after Sample.fresh [ConsoleLog [Lit HELP]])
  /\ main (Sample.runtime_with [])
          ["node"; "alpaca"; "help"; "unknown-command"] Sample.fresh
     = (Ok tt,
        after Sample.fresh
          [ConsoleError
             [Lit "'"; Lit "unknown-command";
              Lit "' is not an alpaca command. See 'alpaca help'"]])
  /\ text_string [Lit "'"; Lit "unknown-command";
                  Lit "' is not an alpaca command. See 'alpaca help'"]
     = Some "'unknown-command' is not an alpaca command. See 'alpaca help'".
Proof. repeat split; reflexivity. Qed.

(* ================================================================== *)
(** * Further properties *)

(** ** Effects compose *)

Lemma appends_ret {A} (a : A) (P : event -> Prop) : appends (ret a) P.
Proof. intros w. exists []. split; [by rewrite app_nil_r|constructor]. Qed.

Lemma appends_throw {A} (e : exn) (P : event -> Prop) :
  appends (@throw A e) P.
Proof. intros w. exists []. split; [by rewrite app_nil_r|constructor]. Qed.

Lemma appends_lift {A} (r : result A) (P : event -> Prop) :
  appends (lift r) P.
Proof. intros w. exists []. split; [by rewrite app_nil_r|constructor]. Qed.

Lemma appends_config_get (key : string) (P : event -> Prop) :
  appends (config_get key) P.
Proof. intros w. exists []. split; [by rewrite app_nil_r|constructor]. Qed.

Lemma appends_emit (e : event) (P : event -> Prop) :
  P e -> appends (emit e) P.
Proof. intros H w. exists [e]. split; [reflexivity|by constructor]. Qed.

Lemma appends_config_set (key : string) (v : value) (P : event -> Prop) :
  P (ConfigSet key v) -> appends (config_set key v) P.
Proof. intros H w. exists [ConfigSet key v]. split; [reflexivity|by constructor]. Qed.

Lemma appends_bind {A B} (m : M A) (k : A -> M B) (P : event -> Prop) :
  appends m P -> (forall a, appends (k a) P) -> appends (bind m k) P.
Proof.
  intros Hm Hk w. unfold bind.
  destruct (Hm w) as (ev1 & E1 & F1).
  destruct (m w) as [[a|e] w1]; cbn [snd] in *.
  - destruct (Hk a w1) as (ev2 & E2 & F2).
    exists (ev1 ++ ev2)%list. rewrite E2, E1, app_assoc.
    split; [reflexivity|]. apply Forall_app; by split.
  - exists ev1. by split.
Qed.

Lemma appends_catch {A} (m : M A) (h : exn -> M A) (P : event -> Prop) :
  appends m P -> (forall e, appends (h e) P) -> appends (catch m h) P.
Proof.
  intros Hm Hh w. unfold catch.
  destruct (Hm w) as (ev1 & E1 & F1).
  destruct (m w) as [[a|e] w1]; cbn [snd] in *.
  - exists ev1. by split.
  - destruct (Hh e w1) as (ev2 & E2 & F2).
    exists (ev1 ++ ev2)%list. rewrite E2, E1, app_assoc.
    split; [reflexivity|]. apply Forall_app; by split.
Qed.

Lemma appends_weaken {A} (m : M A) (P Q : event -> Prop) :
  (forall e, P e -> Q e) -> appends m P -> appends m Q.
Proof.
  intros HPQ Hm w. destruct (Hm w) as (ev & E & F).
  exists ev. split; [exact E|]. eapply Forall_impl; eauto.
Qed.

Lemma keeps_store_ret {A} (a : A) : keeps_store (ret a).
Proof. intros w. reflexivity. Qed.

Lemma keeps_store_throw {A} (e : exn) : keeps_store (@throw A e).
Proof. intros w. reflexivity. Qed.

Lemma keeps_store_lift {A} (r : result A) : keeps_store (lift r).
Proof. intros w. reflexivity. Qed.

Lemma keeps_store_config_get (key : string) : keeps_store (config_get key).
Proof. intros w. reflexivity. Qed.

Lemma keeps_store_emit (e : event) : keeps_store (emit e).
Proof. intros w. reflexivity. Qed.

Lemma keeps_store_bind {A B} (m : M A) (k : A -> M B) :
  keeps_store m -> (forall a, keeps_store (k a)) -> keeps_store (bind m k).
Proof.
  intros Hm Hk w. unfold bind. specialize (Hm w).
  destruct (m w) as [[a|e] w1]; cbn [snd] in *.
  - by rewrite Hk.
  - exact Hm.
Qed.

Lemma keeps_store_catch {A} (m : M A) (h : exn -> M A) :
  keeps_store m -> (forall e, keeps_store (h e)) -> keeps_store (catch m h).
Proof.
  intros Hm Hh w. unfold catch. specialize (Hm w).
  destruct (m w) as [[a|e] w1]; cbn [snd] in *.
  - exact Hm.
  - by rewrite Hh.
Qed.

#[local] Hint Resolve appends_ret appends_throw appends_lift
  appends_config_get keeps_store_ret keeps_store_throw keeps_store_lift
  keeps_store_config_get keeps_store_emit : effects.
#[local] Hint Extern 1 (appends (emit _) _) =>
  apply appends_emit; exact I : effects.
#[local] Hint Extern 1 (appends (config_set _ _) _) =>
  apply appends_config_set; exact I : effects.
#[local] Hint Extern 2 (appends (bind _ _) _) =>
  apply appends_bind; [|intros ?] : effects.
#[local] Hint Extern 2 (keeps_store (bind _ _)) =>
  apply keeps_store_bind; [|intros ?] : effects.
#[local] Hint Extern 3 (appends (match ?x with _ => _ end) _) =>
  destruct x : effects.
#[local] Hint Extern 3 (keeps_store (match ?x with _ => _ end)) =>
  destruct x : effects.

Lemma getAlpaca_appends (P : event -> Prop) : appends getAlpaca P.
Proof. unfold getAlpaca. auto 20 with effects. Qed.

Lemma getAlpaca_keeps_store : keeps_store getAlpaca.
Proof. unfold getAlpaca. auto 20 with effects. Qed.

Lemma order_appends (rt : runtime) (side usage : string) (args : parsed) :
  appends (order rt side usage args) order_event.
Proof.
  unfold order. apply appends_bind; [apply getAlpaca_appends|intros client].
  unfold getMarketPrice, call, console_log. auto 40 with effects.
Qed.

Lemma order_keeps_store (rt : runtime) (side usage : string) (args : parsed) :
  keeps_store (order rt side usage args).
Proof.
  unfold order. apply keeps_store_bind; [apply getAlpaca_keeps_store|intros client].
  unfold getMarketPrice, call, console_log. auto 40 with effects.
Qed.

Lemma report_appends (rt : runtime) (args : parsed) :
  appends (report rt args) report_event.
Proof.
  unfold report. apply appends_bind; [apply getAlpaca_appends|intros client].
  unfold call, console_log. auto 40 with effects.
Qed.

Lemma report_keeps_store (rt : runtime) (args : parsed) :
  keeps_store (report rt args).
Proof.
  unfold report. apply keeps_store_bind; [apply getAlpaca_keeps_store|intros client].
  unfold call, console_log. auto 40 with effects.
Qed.

Lemma help_appends (args : parsed) : appends (help args) is_output.
Proof. unfold help, console_log. auto 20 with effects. Qed.

Lemma help_keeps_store (args : parsed) : keeps_store (help args).
Proof. unfold help, console_log. auto 20 with effects. Qed.

Lemma configure_appends (args : parsed) :
  appends (configure args) configure_event.
Proof. unfold configure, when, console_log. auto 40 with effects. Qed.

(** ** What a run touches *)

Lemma assoc_In {A} (k : string) (l : list (string * A)) (a : A) :
  assoc k l = Some a -> In (k, a) l.
Proof.
  induction l as [|[k' a'] l IH]; [discriminate|].
  cbn [assoc]. destruct (String.eqb_spec k' k) as [E|_].
  - intros H. inversion H. subst. left. reflexivity.
  - intros H. right. apply IH. exact H.
Qed.

Lemma entry_appends (rt : runtime) (name : string) (entry : command)
  (args : parsed) :
  assoc name (cli rt) = Some entry ->
  appends (fn entry args) (allowed (Some name)).
Proof.
  intros H. apply assoc_In in H. member_cases H; cbn [fn cli_help].
  - eapply appends_weaken; [|apply configure_appends].
    intros []; cbn; tauto.
  - eapply appends_weaken; [|apply order_appends].
    intros []; cbn; tauto.
  - eapply appends_weaken; [|apply order_appends].
    intros []; cbn; tauto.
  - eapply appends_weaken; [|apply report_appends].
    intros []; cbn; tauto.
  - eapply appends_weaken; [|apply help_appends].
    intros []; cbn; tauto.
Qed.

Lemma action_appends (rt : runtime) (command : option string)
  (args : parsed) :
  match action_fn (select rt command) with
  | Some f => appends (f args) (allowed command)
  | None => True
  end.
Proof.
  unfold select, js_get.
  destruct command as [name|]; cbn [default from_option Datatypes.id].
  - destruct (assoc name (cli rt)) as [entry|] eqn:E.
    + cbn [action_fn]. apply (entry_appends rt). exact E.
    + destruct (inherited name); cbn [action_fn fn cli_help]; [exact I|].
      eapply appends_weaken; [|apply help_appends].
      intros []; cbn; tauto.
  - rewrite (assoc_none "undefined" (cli rt))
      by (cbn; intuition discriminate).
    cbn [inherited existsb object_prototype_keys action_fn fn cli_help].
    change (inherited "undefined") with false. cbn [action_fn fn cli_help].
    eapply appends_weaken; [|apply help_appends].
    intros []; cbn; tauto.
Qed.

Lemma dispatch_appends (rt : runtime) (args : list string) :
  appends (dispatch rt args) (allowed (head args)).
Proof.
  unfold dispatch. cbv zeta. apply appends_bind.
  - destruct (action_schema (select rt (head args))); auto 10 with effects.
  - intros _.
    pose proof (action_appends rt (head args)
                  (parseArgs rt (tail args)
                     (default Minimist.no_options
                        (action_options (select rt (head args)))))) as H.
    destruct (action_fn (select rt (head args))); [exact H|].
    apply appends_throw.
Qed.

(** Every run returns normally, whatever is thrown on the way.  The
    handlers write nothing on the error stream; when something was
    thrown, the run ends with one line there, the message of what was
    thrown, and otherwise the error stream stays empty. *)
Theorem run_catches_every_error
  (rt : runtime) (node script : string) (args : list string) (w : world) :
  fst (main rt (node :: script :: args) w) = Ok tt
  /\ exists events,
      trace (snd (dispatch rt args w)) = (trace w ++ events)%list
      /\ Forall handler_event events
      /\ trace (snd (main rt (node :: script :: args) w))
         = (trace w ++ events
            ++ match fst (dispatch rt args w) with
               | Ok _ => []
               | Err e => [ConsoleError (message e)]
               end)%list.
Proof.
  change (main rt (node :: script :: args) w)
    with (catch (dispatch rt args)
                (fun err => console_error (message err)) w).
  destruct (dispatch_appends rt args w) as (events & E & F).
  assert (F' : Forall handler_event events).
  { eapply Forall_impl; [exact F|].
    intros [] H; unfold handler_event; cbn in *; tauto. }
  unfold catch.
  destruct (dispatch rt args w) as [[[]|e] w1]; cbn [fst snd] in *.
  - split; [reflexivity|]. exists events.
    rewrite app_nil_r. auto.
  - split; [reflexivity|]. exists events.
    split; [exact E|]. split; [exact F'|].
    cbn. rewrite E, app_assoc. reflexivity.
Qed.

(** A run keeps to what its command is for: it writes to the store only
    under [configure], places an order or asks for a bar only under
    [buy] or [sell], and asks for the positions only under [report].
    Under [help], or any other first argument, it only prints. *)
Theorem commands_keep_to_their_collaborators
  (rt : runtime) (node script : string) (args : list string) (w : world) :
  exists events,
    trace (snd (main rt (node :: script :: args) w))
    = (trace w ++ events)%list
    /\ Forall (run_event (head args)) events.
Proof.
  change (main rt (node :: script :: args) w)
    with (catch (dispatch rt args)
                (fun err => console_error (message err)) w).
  revert w. apply appends_catch.
  - eapply appends_weaken; [|apply dispatch_appends].
    intros [] H; cbn in *; tauto.
  - intros e. apply appends_emit. exact I.
Qed.

Lemma entry_keeps_store (rt : runtime) (name : string) (entry : command)
  (args : parsed) :
  assoc name (cli rt) = Some entry ->
  name <> "configure" ->
  keeps_store (fn entry args).
Proof.
  intros H Hne. apply assoc_In in H. member_cases H; cbn [fn cli_help].
  - contradiction.
  - apply order_keeps_store.
  - apply order_keeps_store.
  - apply report_keeps_store.
  - apply help_keeps_store.
Qed.

(** Only [configure] changes the configuration store: a run under any
    other first argument, or under none, leaves the store as it was,
    whether the run succeeds or fails. *)
Theorem only_configure_changes_store
  (rt : runtime) (node script : string) (args : list string) (w : world) :
  head args <> Some "configure" ->
  store (snd (main rt (node :: script :: args) w)) = store w.
Proof.
  intros Hne.
  change (main rt (node :: script :: args) w)
    with (catch (dispatch rt args)
                (fun err => console_error (message err)) w).
  revert w. apply keeps_store_catch; [|intros e w; reflexivity].
  unfold dispatch. cbv zeta. apply keeps_store_bind.
  - destruct (action_schema (select rt (head args))); auto 10 with effects.
  - intros _. unfold select, js_get.
    destruct (head args) as [name|]; cbn [default from_option Datatypes.id].
    + destruct (assoc name (cli rt)) as [entry|] eqn:E.
      * cbn [action_fn]. apply (entry_keeps_store rt name); [exact E|].
        intros ->. apply Hne. reflexivity.
      * destruct (inherited name); cbn [action_fn fn cli_help];
          [apply keeps_store_throw|apply help_keeps_store].
    + rewrite (assoc_none "undefined" (cli rt))
        by (cbn; intuition discriminate).
      change (inherited "undefined") with false.
      cbn [action_fn fn cli_help]. apply help_keeps_store.
Qed.

Lemma only_configure_changes_store_witness :
  head ["buy"; "AAPL"] <> Some "configure"
  /\ store (snd (main (Sample.runtime_with [])
                      ["node"; "alpaca"; "buy"; "AAPL"] Sample.configured))
     = store Sample.configured.
Proof.
  assert (H : head ["buy"; "AAPL"] <> Some "configure") by discriminate.
  split; [exact H|].
  exact (only_configure_changes_store (Sample.runtime_with [])
           "node" "alpaca" ["buy"; "AAPL"] Sample.configured H).
Defined.

(** ** Orders *)

Lemma order_after_resolution (rt : runtime) (side usage : string)
  (args : parsed) (w : world) (qty symbol : value) :
  has_credentials w ->
  resolve usage (positionals args) = Ok (qty, symbol) ->
  order rt side usage args w
  = match createOrder (alpaca rt) (client_of w)
            (request_of side args qty symbol) with
    | Err e =>
        (Err e,
         after w [CreateOrder (client_of w)
                    (request_of side args qty symbol)])
    | Ok reply =>
        if strict_equals_string (arg args "type") "stop_limit" then
          (Ok tt,
           after w [CreateOrder (client_of w)
                      (request_of side args qty symbol);
                    ConsoleLog
                      (confirmation side args qty symbol
                         [Lit "between $"; interp (arg args "stop-price");
                          Lit " and $"; interp (arg args "limit-price")]
                         reply)])
        else if strict_equals_string (arg args "type") "limit" then
          (Ok tt,
           after w [CreateOrder (client_of w)
                      (request_of side args qty symbol);
                    ConsoleLog
                      (confirmation side args qty symbol
                         [Lit "at $"; interp (arg args "limit-price")]
                         reply)])
        else if strict_equals_string (arg args "type") "stop" then
          (Ok tt,
           after w [CreateOrder (client_of w)
                      (request_of side args qty symbol);
                    ConsoleLog
                      (confirmation side args qty symbol
                         [Lit "at $"; interp (arg args "stop-price")]
                         reply)])
        else
          match getBars (alpaca rt) (client_of w) symbol with
          | Err e =>
              (Err e,
               after w [CreateOrder (client_of w)
                          (request_of side args qty symbol);
                        GetBars (client_of w) symbol])
          | Ok None =>
              (Err (TypeError [Lit "Cannot read property 'c' of undefined"]),
               after w [CreateOrder (client_of w)
                          (request_of side args qty symbol);
                        GetBars (client_of w) symbol])
          | Ok (Some b) =>
              (Ok tt,
               after w [CreateOrder (client_of w)
                          (request_of side args qty symbol);
                        GetBars (client_of w) symbol;
                        ConsoleLog
                          (confirmation side args qty symbol
                             [Lit "at $"; interp (c b)] reply)])
          end
    end.
Proof.
  intros [Hk Hs] Hr. unfold order, bind.
  rewrite (getAlpaca_configured w Hk Hs). unfold lift at 1. rewrite Hr.
  fold (request_of side args qty symbol).
  unfold confirmation, console_log, call, bind, emit, lift, after.
  destruct (createOrder (alpaca rt) (client_of w)
              (request_of side args qty symbol)) as [reply|e];
    [|reflexivity].
  destruct (strict_equals_string (arg args "type") "stop_limit");
    [cbn; rewrite <- app_assoc; reflexivity|].
  destruct (strict_equals_string (arg args "type") "limit");
    [cbn; rewrite <- app_assoc; reflexivity|].
  destruct (strict_equals_string (arg args "type") "stop");
    [cbn; rewrite <- app_assoc; reflexivity|].
  unfold getMarketPrice, call, bind, emit, lift.
  destruct (getBars (alpaca rt) (client_of w) symbol) as [[b|]|e];
    cbn; rewrite <- ?app_assoc; cbn; rewrite <- ?app_assoc; reflexivity.
Qed.

(** When the brokerage refuses the order, [order] throws what the
    brokerage threw: nothing is printed and no price is looked up. *)
Theorem rejected_order_is_not_confirmed (rt : runtime) (side usage : string)
  (args : parsed) (w : world) (qty symbol : value) (e : exn) :
  has_credentials w ->
  resolve usage (positionals args) = Ok (qty, symbol) ->
  createOrder (alpaca rt) (client_of w) (request_of side args qty symbol)
  = Err e ->
  order rt side usage args w
  = (Err e,
     after w [CreateOrder (client_of w) (request_of side args qty symbol)]).
Proof.
  intros Hc Hr He. rewrite (order_after_resolution _ _ _ _ _ _ _ Hc Hr), He.
  reflexivity.
Qed.

Lemma strict_equals_string_spec (t s : string) :
  strict_equals_string (VString t) s = true <-> t = s.
Proof. cbn. apply String.eqb_eq. Qed.

(** For an order the brokerage accepts, the latest bar is asked for
    exactly when the type is none of [stop_limit], [limit] and [stop]:
    those three are confirmed from the flags alone, with one call to the
    brokerage; any other type asks for the bar of the symbol right after
    the order. *)
Theorem price_lookup_only_without_own_price (rt : runtime)
  (side usage : string) (args : parsed) (w : world) (qty symbol : value)
  (reply : order_reply) (t : string) :
  has_credentials w ->
  resolve usage (positionals args) = Ok (qty, symbol) ->
  createOrder (alpaca rt) (client_of w) (request_of side args qty symbol)
  = Ok reply ->
  arg args "type" = VString t ->
  (In t priced_types ->
   exists priceText,
     order rt side usage args w
     = (Ok tt,
        after w [CreateOrder (client_of w) (request_of side args qty symbol);
                 ConsoleLog
                   (confirmation side args qty symbol priceText reply)]))
  /\ (~ In t priced_types ->
      exists rest,
        trace (snd (order rt side usage args w))
        = (trace w
           ++ CreateOrder (client_of w) (request_of side args qty symbol)
           :: GetBars (client_of w) symbol :: rest)%list).
Proof.
  intros Hc Hr Hreply Ht.
  rewrite (order_after_resolution _ _ _ _ _ _ _ Hc Hr), Hreply, Ht.
  split.
  - intros Hin. cbn in Hin.
    destruct Hin as [<-|[<-|[<-|[]]]]; eexists; reflexivity.
  - intros Hn.
    assert (H1 : strict_equals_string (VString t) "stop_limit" = false).
    { apply not_true_is_false. rewrite strict_equals_string_spec.
      intros ->. apply Hn. cbn. tauto. }
    assert (H2 : strict_equals_string (VString t) "limit" = false).
    { apply not_true_is_false. rewrite strict_equals_string_spec.
      intros ->. apply Hn. cbn. tauto. }
    assert (H3 : strict_equals_string (VString t) "stop" = false).
    { apply not_true_is_false. rewrite strict_equals_string_spec.
      intros ->. apply Hn. cbn. tauto. }
    rewrite H1, H2, H3.
    destruct (getBars (alpaca rt) (client_of w) symbol) as [[b|]|e];
      eexists; reflexivity.
Qed.


(** ** Quantity and symbol, further *)

(** When the tokens resolve, the quantity is truthy: no order goes out
    for [0], [NaN] or an empty quantity.  The symbol is truthy too, or
    it is the empty text, which an empty first token before nothing
    truthy yields. *)
Theorem resolved_quantity_is_truthy (usage : string) (tokens : list atom)
  (qty symbol : value) :
  resolve usage tokens = Ok (qty, symbol) ->
  truthy qty = true /\ (truthy symbol = true \/ symbol = VString "").
Proof.
  unfold resolve.
  destruct (truthy (element tokens 1)) eqn:Hs; cbn [negb andb orb].
  - destruct (truthy (element tokens 0)) eqn:Hq; cbn [negb];
      [|discriminate].
    intros H. inversion H. subst. auto.
  - destruct (element tokens 0) as [| |b|x|s|l|o|n] eqn:Hq;
      cbn [is_string truthy negb orb]; try rewrite orb_true_r;
      try discriminate.
    intros H. inversion H. subst. split; [reflexivity|].
    cbn. destruct (String.eqb_spec s ""); [right; by subst|by left].
Qed.

Lemma resolved_quantity_is_truthy_witness :
  resolve BUY_USAGE [AString ""] = Ok (VNumber Num.one, VString "")
  /\ truthy (VNumber Num.one) = true
  /\ (truthy (VString "") = true \/ VString "" = VString "").
Proof.
  split; [reflexivity|].
  exact (resolved_quantity_is_truthy BUY_USAGE [AString ""]
           (VNumber Num.one) (VString "") eq_refl).
Defined.

(** Tokens after the second are not looked at. *)
Theorem resolve_ignores_further_tokens (usage : string) (q s : atom)
  (rest : list atom) :
  resolve usage (q :: s :: rest) = resolve usage [q; s].
Proof. reflexivity. Qed.

Lemma rejected_order_is_not_confirmed_witness :
  has_credentials Sample.configured
  /\ order (Trial.runtime_of Trial.refusing) "buy" BUY_USAGE
           Trial.market_order Sample.configured
     = (Err (Error [Lit "insufficient buying power"]),
        after Sample.configured
          [CreateOrder (client_of Sample.configured)
             (request_of "buy" Trial.market_order
                (VNumber Num.one) (VString "AAPL"))]).
Proof.
  assert (Hc : has_credentials Sample.configured) by (split; reflexivity).
  split; [exact Hc|].
  exact (rejected_order_is_not_confirmed (Trial.runtime_of Trial.refusing)
           "buy" BUY_USAGE Trial.market_order Sample.configured
           (VNumber Num.one) (VString "AAPL")
           (Error [Lit "insufficient buying power"]) Hc eq_refl eq_refl).
Defined.

Lemma price_lookup_only_without_own_price_witness :
  has_credentials Sample.configured
  /\ In "limit" priced_types
  /\ exists priceText,
      order (Sample.runtime_with []) "buy" BUY_USAGE Trial.limit_order
            Sample.configured
      = (Ok tt,
         after Sample.configured
           [CreateOrder (client_of Sample.configured)
              (request_of "buy" Trial.limit_order
                 (VNumber (Num.of_Z 2)) (VString "AAPL"));
            ConsoleLog
              (confirmation "buy" Trial.limit_order
                 (VNumber (Num.of_Z 2)) (VString "AAPL") priceText
                 {| id := VString "61e69015" |})]).
Proof.
  assert (Hc : has_credentials Sample.configured) by (split; reflexivity).
  assert (Hin : In "limit" priced_types) by (cbn; tauto).
  split; [exact Hc|]. split; [exact Hin|].
  exact (proj1 (price_lookup_only_without_own_price
                  (Sample.runtime_with []) "buy" BUY_USAGE
                  Trial.limit_order Sample.configured
                  (VNumber (Num.of_Z 2)) (VString "AAPL")
                  {| id := VString "61e69015" |} "limit"
                  Hc eq_refl eq_refl eq_refl) Hin).
Defined.


(** ** report, further *)

Lemma describe_not_textual (rt : runtime) (pos : position) :
  not_textual pos -> exists msg, describe rt pos = Err (TypeError msg).
Proof.
  intros [H|H]; unfold describe.
  - destruct (pos_symbol pos); try discriminate; eexists; reflexivity.
  - destruct (pos_symbol pos); try (eexists; reflexivity).
    destruct (pos_qty pos); try discriminate; eexists; reflexivity.
Qed.

Lemma describe_type_error (rt : runtime) (pos : position) (e : exn) :
  describe rt pos = Err e -> exists msg, e = TypeError msg.
Proof.
  unfold describe.
  destruct (pos_symbol pos); cbn;
    try (intros H; inversion H; eexists; reflexivity).
  destruct (pos_qty pos); cbn;
    intros H; inversion H; eexists; reflexivity.
Qed.

Lemma describe_all_not_textual (rt : runtime) (positions : list position) :
  Exists not_textual positions ->
  exists msg, describe_all rt positions = Err (TypeError msg).
Proof.
  induction positions as [|pos positions IH]; intros H.
  - inversion H.
  - cbn [describe_all].
    destruct (describe rt pos) as [row|e] eqn:Hd.
    + apply Exists_cons in H. destruct H as [H|H].
      * destruct (describe_not_textual rt pos H) as [msg Hm]. congruence.
      * destruct (IH H) as [msg Hm]. rewrite Hm. eexists. reflexivity.
    + destruct (describe_type_error rt pos e Hd) as [msg ->].
      eexists. reflexivity.
Qed.

(** One position whose symbol or quantity is no string is enough for
    [report] to throw a type error once the positions are in: no row and
    no total is printed, not even for the positions that are well
    formed. *)
Theorem report_throws_on_a_field_that_is_no_string (rt : runtime)
  (args : parsed) (w : world) (positions : list position) :
  has_credentials w ->
  getPositions (alpaca rt) (client_of w) = Ok positions ->
  Exists not_textual positions ->
  exists msg,
    report rt args w
    = (Err (TypeError msg), after w [GetPositions (client_of w)]).
Proof.
  intros [Hk Hs] Hpos Hex.
  destruct (describe_all_not_textual rt positions Hex) as [msg Hm].
  exists msg. unfold report, bind.
  rewrite (getAlpaca_configured w Hk Hs).
  unfold call, bind, emit, lift. rewrite Hpos. cbn [store trace].
  rewrite Hm. reflexivity.
Qed.

Lemma report_throws_on_a_field_that_is_no_string_witness :
  has_credentials Sample.configured
  /\ Exists not_textual [Sample.aapl; Sample.aapl_numeric_qty]
  /\ exists msg,
      report (Sample.runtime_with [Sample.aapl; Sample.aapl_numeric_qty])
             {| positionals := []; flags := [] |} Sample.configured
      = (Err (TypeError msg),
         after Sample.configured [GetPositions (client_of Sample.configured)]).
Proof.
  assert (Hc : has_credentials Sample.configured) by (split; reflexivity).
  assert (Hex : Exists not_textual [Sample.aapl; Sample.aapl_numeric_qty]).
  { apply Exists_cons_tl, Exists_cons_hd. right. reflexivity. }
  split; [exact Hc|]. split; [exact Hex|].
  exact (report_throws_on_a_field_that_is_no_string
           (Sample.runtime_with [Sample.aapl; Sample.aapl_numeric_qty])
           {| positionals := []; flags := [] |} Sample.configured
           [Sample.aapl; Sample.aapl_numeric_qty] Hc eq_refl Hex).
Defined.

Lemma add_nan_l (x : number) : Num.add Num.nan x = Num.nan.
Proof. destruct x; reflexivity. Qed.

Lemma add_nan_r (x : number) : Num.add x Num.nan = Num.nan.
Proof. destruct x; reflexivity. Qed.

Lemma fold_from_nan (positions : list position) :
  fold_left (fun total pos =>
               Num.add total (parseFloat (pos_unrealized_pl pos)))
            positions Num.nan
  = Num.nan.
Proof.
  induction positions as [|pos positions IH]; [reflexivity|].
  cbn [fold_left]. rewrite add_nan_l. exact IH.
Qed.

Lemma performance_nan (positions : list position) (pos : position) :
  In pos positions ->
  parseFloat (pos_unrealized_pl pos) = Num.nan ->
  performance_of positions = Num.nan.
Proof.
  unfold performance_of. generalize Num.zero.
  induction positions as [|p positions IH]; intros acc Hin Hnan.
  - destruct Hin.
  - cbn [fold_left]. destruct Hin as [->|Hin].
    + rewrite Hnan, add_nan_r. apply fold_from_nan.
    + apply IH; assumption.
Qed.

(** One position whose [unrealized_pl] does not read as a number makes
    the total [NaN], whatever the other positions hold and wherever it
    stands; [report] then prints the rows and the format of [NaN], with
    no plus sign. *)
Theorem one_unreadable_amount_spoils_the_total (rt : runtime)
  (args : parsed) (w : world) (positions : list position) (pos : position) :
  has_credentials w ->
  getPositions (alpaca rt) (client_of w) = Ok positions ->
  Forall textual positions ->
  In pos positions ->
  parseFloat (pos_unrealized_pl pos) = Num.nan ->
  performance_of positions = Num.nan
  /\ exists rows,
      describe_all rt positions = Ok rows
      /\ report rt args w
         = (Ok tt,
            after w [GetPositions (client_of w);
                     ConsoleLog
                       [Lit (summary rows "" (toLocaleString rt Num.nan))]]).
Proof.
  intros Hc Hpos Htext Hin Hnan.
  pose proof (performance_nan positions pos Hin Hnan) as Hp.
  split; [exact Hp|].
  destruct (describe_all_textual rt positions Htext) as (rows & Hrows & _).
  exists rows. split; [exact Hrows|].
  rewrite (report_rows rt args w positions rows Hc Hpos Hrows), Hp.
  reflexivity.
Qed.

Lemma one_unreadable_amount_spoils_the_total_witness :
  has_credentials Sample.configured
  /\ Forall textual [Sample.aapl; Trial.unreadable]
  /\ In Trial.unreadable [Sample.aapl; Trial.unreadable]
  /\ parseFloat (pos_unrealized_pl Trial.unreadable) = Num.nan
  /\ performance_of [Sample.aapl; Trial.unreadable] = Num.nan.
Proof.
  assert (Hc : has_credentials Sample.configured) by (split; reflexivity).
  assert (Ht : Forall textual [Sample.aapl; Trial.unreadable])
    by (repeat constructor).
  assert (Hin : In Trial.unreadable [Sample.aapl; Trial.unreadable])
    by (cbn; tauto).
  split; [exact Hc|]. split; [exact Ht|]. split; [exact Hin|].
  split; [reflexivity|].
  exact (proj1 (one_unreadable_amount_spoils_the_total
                  (Sample.runtime_with [Sample.aapl; Trial.unreadable])
                  {| positionals := []; flags := [] |} Sample.configured
                  [Sample.aapl; Trial.unreadable] Trial.unreadable
                  Hc eq_refl Ht Hin eq_refl)).
Defined.

(** With no position at all, [report] prints the heading, no row, and
    the format of [0] with no sign. *)
Theorem report_of_an_empty_portfolio (rt : runtime) (args : parsed)
  (w : world) :
  has_credentials w ->
  getPositions (alpaca rt) (client_of w) = Ok [] ->
  report rt args w
  = (Ok tt,
     after w [GetPositions (client_of w);
              ConsoleLog
                [Lit (summary [] "" (toLocaleString rt Num.zero))]]).
Proof.
  intros Hc Hpos.
  apply (report_rows rt args w [] [] Hc Hpos). reflexivity.
Qed.

Lemma report_of_an_empty_portfolio_witness :
  has_credentials Sample.configured
  /\ report (Sample.runtime_with []) {| positionals := []; flags := [] |}
            Sample.configured
     = (Ok tt,
        after Sample.configured
          [GetPositions (client_of Sample.configured);
           ConsoleLog [Lit (summary [] "" "$0.00")]]).
Proof.
  assert (Hc : has_credentials Sample.configured) by (split; reflexivity).
  split; [exact Hc|].
  exact (report_of_an_empty_portfolio (Sample.runtime_with [])
           {| positionals := []; flags := [] |} Sample.configured
           Hc eq_refl).
Defined.

(** ** Credentials and modes *)

(** With credentials in the store, [getAlpaca] builds its client from
    what is stored and changes nothing; the client trades on paper
    exactly when the stored mode is the text [paper]: with no mode
    stored, or any other, it trades live. *)
Theorem paper_only_when_mode_is_paper (w : world) :
  has_credentials w ->
  exists client,
    getAlpaca w = (Ok client, w)
    /\ Some (keyId client) = store w !! "keyId"
    /\ Some (secretKey client) = store w !! "secretKey"
    /\ (paper client = true <-> store w !! "mode" = Some (VString "paper")).
Proof.
  intros [Hk Hs]. exists (client_of w).
  split; [apply getAlpaca_configured; assumption|].
  unfold client_of. cbn [keyId secretKey paper].
  destruct (store w !! "keyId") as [k|]; [|discriminate].
  destruct (store w !! "secretKey") as [s|]; [|discriminate].
  split; [reflexivity|]. split; [reflexivity|].
  destruct (store w !! "mode") as [m|]; cbn; [|split; discriminate].
  destruct m; cbn; try (split; discriminate).
  rewrite String.eqb_eq. split; [intros ->; reflexivity|].
  intros H. inversion H. reflexivity.
Qed.

Lemma paper_only_when_mode_is_paper_witness :
  has_credentials Sample.configured
  /\ exists client,
      getAlpaca Sample.configured = (Ok client, Sample.configured)
      /\ Some (keyId client) = store Sample.configured !! "keyId"
      /\ Some (secretKey client) = store Sample.configured !! "secretKey"
      /\ (paper client = true
          <-> store Sample.configured !! "mode" = Some (VString "paper")).
Proof.
  assert (Hc : has_credentials Sample.configured) by (split; reflexivity).
  split; [exact Hc|].
  exact (paper_only_when_mode_is_paper Sample.configured Hc).
Defined.

Lemma set_if_lookup (key : string) (v : value) (m : gmap string value) :
  set_if key v m !! key = written v (m !! key).
Proof.
  unfold set_if, written. destruct (truthy v); [|reflexivity].
  apply lookup_insert_eq.
Qed.

Lemma configure_lookup (args : parsed) (w : world) (flag key : string) :
  In (flag, key) configure_flags ->
  store (snd (configure args w)) !! key
  = written (arg args flag) (store w !! key).
Proof.
  intros Hin. rewrite configure_store.
  member_cases Hin;
    repeat first
      [ rewrite set_if_lookup
      | rewrite set_if_lookup_ne by discriminate ];
    reflexivity.
Qed.

(** What [configure] stores can be read back: after [configure] with a
    truthy [id] and a truthy [secret], [getAlpaca] succeeds on the world
    it leaves, and its client holds that id and that secret. *)
Theorem configured_credentials_are_read_back (args : parsed) (w : world) :
  truthy (arg args "id") = true ->
  truthy (arg args "secret") = true ->
  exists client,
    getAlpaca (snd (configure args w)) = (Ok client, snd (configure args w))
    /\ keyId client = arg args "id"
    /\ secretKey client = arg args "secret".
Proof.
  intros Hid Hsecret.
  pose proof (configure_lookup args w "id" "keyId") as Hk.
  pose proof (configure_lookup args w "secret" "secretKey") as Hs.
  unfold written in Hk, Hs. rewrite Hid in Hk. rewrite Hsecret in Hs.
  specialize (Hk ltac:(cbn; tauto)). specialize (Hs ltac:(cbn; tauto)).
  exists (client_of (snd (configure args w))).
  split.
  - apply getAlpaca_configured.
    + rewrite Hk. exact Hid.
    + rewrite Hs. exact Hsecret.
  - unfold client_of. cbn [keyId secretKey]. rewrite Hk, Hs. auto.
Qed.

Lemma configured_credentials_are_read_back_witness :
  truthy (arg Trial.first_keys "id") = true
  /\ truthy (arg Trial.first_keys "secret") = true
  /\ exists client,
      getAlpaca (snd (configure Trial.first_keys Sample.fresh))
      = (Ok client, snd (configure Trial.first_keys Sample.fresh))
      /\ keyId client = arg Trial.first_keys "id"
      /\ secretKey client = arg Trial.first_keys "secret".
Proof.
  split; [reflexivity|]. split; [reflexivity|].
  exact (configured_credentials_are_read_back Trial.first_keys Sample.fresh
           eq_refl eq_refl).
Defined.

(** Two runs of [configure] compose key by key, the later write
    winning: each key holds the second run's flag when that is truthy,
    else the first run's flag when that is truthy, else what it held
    before. *)
Theorem later_configuration_wins (first second : parsed) (w : world)
  (flag key : string) :
  In (flag, key) configure_flags ->
  store (snd (configure second (snd (configure first w)))) !! key
  = written (arg second flag) (written (arg first flag) (store w !! key)).
Proof.
  intros Hin.
  rewrite (configure_lookup second _ flag key Hin).
  rewrite (configure_lookup first w flag key Hin).
  reflexivity.
Qed.

Lemma later_configuration_wins_witness :
  In ("id", "keyId") configure_flags
  /\ store (snd (configure Trial.second_id
                   (snd (configure Trial.first_keys Sample.fresh))))
       !! "keyId"
     = Some (VString "AK2")
  /\ store (snd (configure Trial.second_id
                   (snd (configure Trial.first_keys Sample.fresh))))
       !! "secretKey"
     = Some (VString "s3cr3t").
Proof.
  assert (H1 : In ("id", "keyId") configure_flags) by (cbn; tauto).
  assert (H2 : In ("secret", "secretKey") configure_flags) by (cbn; tauto).
  split; [exact H1|]. split.
  - exact (later_configuration_wins Trial.first_keys Trial.second_id
             Sample.fresh "id" "keyId" H1).
  - exact (later_configuration_wins Trial.first_keys Trial.second_id
             Sample.fresh "secret" "secretKey" H2).
Defined.

(** With no truthy flag among the four, [configure] writes nothing, and
    still prints [configured] followed by the name of every flag it was
    given, stored or not. *)
Theorem configure_names_flags_it_did_not_store (args : parsed) (w : world) :
  (forall flag key, In (flag, key) configure_flags ->
                    truthy (arg args flag) = false) ->
  configure args w
  = (Ok tt,
     after w [ConsoleLog
                [Lit ("configured "
                      +:+ String.concat ", "
                            (List.filter (fun key => negb (key =? "_"))
                                         (keys args)))]]).
Proof.
  intros Hall.
  unfold configure, when, bind, console_log, emit, ret, after.
  rewrite (Hall "id" "keyId"), (Hall "secret" "secretKey"),
    (Hall "mode" "mode"), (Hall "base-url" "baseUrl")
    by (cbn; tauto).
  reflexivity.
Qed.

Lemma configure_names_flags_it_did_not_store_witness :
  (forall flag key, In (flag, key) configure_flags ->
                    truthy (arg {| positionals := [];
                                   flags := [("id", VString "");
                                             ("verbose", VBool true)] |}
                                flag) = false)
  /\ configure {| positionals := [];
                  flags := [("id", VString ""); ("verbose", VBool true)] |}
               Sample.fresh
     = (Ok tt,
        after Sample.fresh [ConsoleLog [Lit "configured id, verbose"]]).
Proof.
  assert (H : forall flag key,
             In (flag, key) configure_flags ->
             truthy (arg {| positionals := [];
                            flags := [("id", VString "");
                                      ("verbose", VBool true)] |}
                         flag) = false).
  { intros flag key Hin. member_cases Hin; reflexivity. }
  split; [exact H|].
  exact (configure_names_flags_it_did_not_store
           {| positionals := [];
              flags := [("id", VString ""); ("verbose", VBool true)] |}
           Sample.fresh H).
Defined.

(** ** Dispatch and help, further *)

(** A first argument that is no command and no name that objects
    inherit runs [help] on the arguments after it, with no validation;
    so does a run with no argument at all.  [alpaca frobnicate buy]
    thus prints the help of [buy]. *)
Theorem unknown_command_runs_help (rt : runtime) (name : string)
  (argv : list string) (w : world) :
  ~ In name command_names ->
  inherited name = false ->
  dispatch rt (name :: argv) w
  = help (parseArgs rt argv Minimist.no_options) w
  /\ dispatch rt [] w = help (parseArgs rt [] Minimist.no_options) w.
Proof.
  intros Hn Hi. split.
  - unfold dispatch. cbv zeta. cbn [head tail].
    rewrite (select_unknown rt name Hn Hi).
    cbn [action_schema action_options action_fn cli_help schema options fn].
    unfold bind, ret. reflexivity.
  - reflexivity.
Qed.

Lemma unknown_command_runs_help_witness :
  ~ In "frobnicate" command_names
  /\ inherited "frobnicate" = false
  /\ main (Sample.runtime_with []) ["node"; "alpaca"; "frobnicate"; "buy"]
          Sample.fresh
     = (Ok tt,
        after Sample.fresh [ConsoleLog [Lit (BUY_USAGE +:+ "

Buys a stock")]]).
Proof.
  assert (Hn : ~ In "frobnicate" command_names)
    by (cbn; intuition discriminate).
  split; [exact Hn|]. split; [reflexivity|].
  change (main (Sample.runtime_with [])
               ["node"; "alpaca"; "frobnicate"; "buy"] Sample.fresh)
    with (catch (dispatch (Sample.runtime_with []) ["frobnicate"; "buy"])
                (fun err => console_error (message err)) Sample.fresh).
  unfold catch.
  rewrite (proj1 (unknown_command_runs_help (Sample.runtime_with [])
                    "frobnicate" ["buy"] Sample.fresh Hn eq_refl)).
  reflexivity.
Defined.

(** A first topic that is truthy and names nothing in [HELP_DETAILS],
    its own or inherited, is refused by name and nothing is printed:
    every number but [0] and [NaN], and every text that is not empty,
    not a command and not a name that objects inherit. *)
Theorem help_refuses_what_it_does_not_know (topic : atom) (rest : list atom)
  (flags : list (string * value)) (w : world) :
  truthy (value_of topic) = true ->
  (forall name, topic = AString name ->
                ~ In name command_names /\ inherited name = false) ->
  help {| positionals := topic :: rest; flags := flags |} w
  = (Err (Error [Lit "'"; interp (value_of topic);
                 Lit "' is not an alpaca command. See 'alpaca help'"]), w).
Proof.
  intros Ht Hname. unfold help, element.
  cbn [positionals nth_error]. rewrite Ht.
  destruct topic as [name|x]; cbn [value_of].
  - destruct (Hname name eq_refl) as [Hn Hi].
    rewrite (help_detail_unknown name Hn Hi). reflexivity.
  - reflexivity.
Qed.

Lemma help_refuses_what_it_does_not_know_witness :
  truthy (value_of (ANumber (Num.of_Z 5))) = true
  /\ help {| positionals := [ANumber (Num.of_Z 5)]; flags := [] |}
          Sample.fresh
     = (Err (Error [Lit "'"; Interp (VNumber (Num.of_Z 5));
                    Lit "' is not an alpaca command. See 'alpaca help'"]),
        Sample.fresh).
Proof.
  split; [reflexivity|].
  apply (help_refuses_what_it_does_not_know (ANumber (Num.of_Z 5)) [] []
           Sample.fresh eq_refl).
  intros name H. discriminate.
Defined.

(** The handler is called with the arguments as minimist parsed them:
    what [assertSchema] returns, joi's converted copy, is dropped.  The
    text of a number that minimist left as text reaches the handler as
    text. *)
Theorem handler_gets_unconverted_arguments (rt : runtime)
  (args : list string) (w : world) (entry : command) (s : Joi.schema)
  (converted : parsed) :
  select rt (head args) = Entry entry ->
  schema entry = Some s ->
  assertSchema (parseArgs rt (tail args) (options entry)) s = Ok converted ->
  dispatch rt args w = fn entry (parseArgs rt (tail args) (options entry)) w.
Proof.
  intros Hsel Hs Hok. unfold dispatch. cbv zeta. rewrite Hsel.
  cbn [action_schema action_options action_fn default from_option
         Datatypes.id].
  rewrite Hs. unfold bind, lift, ret. rewrite Hok. reflexivity.
Qed.

Lemma handler_gets_unconverted_arguments_witness :
  assertSchema
    (Sample.minimist ["AAPL"; "--limit-price"; "1E2"] orderOptions)
    orderSchema
  = Ok {| positionals := [AString "AAPL"];
          flags := [("limit-price", VNumber (Num.of_Z 100));
                    ("type", VString "market");
                    ("time-in-force", VString "gtc")] |}
  /\ dispatch (Sample.runtime_with [])
              ["buy"; "AAPL"; "--limit-price"; "1E2"] Sample.configured
     = order (Sample.runtime_with []) "buy" BUY_USAGE
             {| positionals := [AString "AAPL"];
                flags := [("limit-price", VString "1E2");
                          ("type", VString "market");
                          ("time-in-force", VString "gtc")] |}
             Sample.configured.
Proof.
  split; [reflexivity|].
  exact (handler_gets_unconverted_arguments (Sample.runtime_with [])
           ["buy"; "AAPL"; "--limit-price"; "1E2"] Sample.configured
           {| options := orderOptions; schema := Some orderSchema;
              fn := order (Sample.runtime_with []) "buy" BUY_USAGE |}
           orderSchema
           {| positionals := [AString "AAPL"];
              flags := [("limit-price", VNumber (Num.of_Z 100));
                        ("type", VString "market");
                        ("time-in-force", VString "gtc")] |}
           eq_refl eq_refl eq_refl).
Defined.

(** ** One order at most *)

(** A run of [buy] or [sell] places at most one order, whatever the
    arguments, the store and the brokerage. *)
Theorem at_most_one_order_is_placed (rt : runtime) (side usage : string)
  (args : parsed) (w : world) :
  exists events,
    trace (snd (order rt side usage args w)) = (trace w ++ events)%list
    /\ (List.length (List.filter placing events) <= 1)%nat.
Proof.
  unfold order, getAlpaca, bind, config_get, throw, ret, lift.
  destruct (negb (truthy (default VUndefined (store w !! "keyId")))
            || negb (truthy (default VUndefined (store w !! "secretKey"))));
    [exists []; split; [by rewrite app_nil_r|cbn; lia]|].
  destruct (resolve usage (positionals args)) as [[qty symbol]|e];
    [|exists []; split; [by rewrite app_nil_r|cbn; lia]].
  unfold call, bind, emit, lift, console_log, emit.
  match goal with
  | |- context [createOrder ?b ?cl ?req] =>
      destruct (createOrder b cl req) as [reply|e]
  end; [|eexists; split; [reflexivity|cbn; lia]].
  destruct (strict_equals_string (arg args "type") "stop_limit");
    [eexists; split; [cbn; rewrite <- app_assoc; reflexivity|cbn; lia]|].
  destruct (strict_equals_string (arg args "type") "limit");
    [eexists; split; [cbn; rewrite <- app_assoc; reflexivity|cbn; lia]|].
  destruct (strict_equals_string (arg args "type") "stop");
    [eexists; split; [cbn; rewrite <- app_assoc; reflexivity|cbn; lia]|].
  unfold getMarketPrice, call, bind, emit, lift.
  match goal with
  | |- context [getBars ?b ?cl ?sym] =>
      destruct (getBars b cl sym) as [[bar|]|e]
  end;
    eexists; (split; [cbn; rewrite <- ?app_assoc; cbn;
                      rewrite <- ?app_assoc; reflexivity|cbn; lia]).
Qed.
